(** * FlowTTS BYOK wrapper: the stream aggregator, the WAV encoder and the
    error handler of [predict.py], embedded and verified.

    The development follows the source file top to bottom:
    - [Py]        Python values, exceptions and the result of a call;
    - [Struct]    the [struct.pack] fields the wave writer uses;
    - [BytesIO]   the in-memory file [pcm_to_wav] writes to;
    - [Wave]      the writer half of the standard [wave] module;
    - [pcm_to_wav] (lines 32-53);
    - [Base64]    [base64.b64decode] in its default, non-validating mode;
    - [Json]      the values [json.loads] returns, with their truth value;
    - [Predictor] the event loop, the exception handler and the
                  finalisation of [Predictor.predict] (lines 172-219);
    - [Layout], [Events]  the vocabulary of the properties: the header of
                  a container, the frames of a response;
    - [Text], [Entry]  the text as a sequence of code points, the input
                  checks, the client and the request (lines 129-170), and
                  [predict] as it is called, over any service.

    Host assumptions: a little-endian machine (the wave writer swaps bytes
    on a big-endian one) and the CPython 3.11 standard library. *)

From Stdlib Require Import ZArith String Ascii Bool Lia List.
From Stdlib Require Import DecimalString SpecFloat.
From coqutil Require Import Byte Word.LittleEndianList.
Import ListNotations.
Local Open Scope Z_scope.

(** ** Python values and exceptions *)

Module Py.

(** A [bytes] object. *)
Definition bytes := list byte.

(** The exceptions that can travel through [predict]. [str] of each is
    [exn_str]. [Upstream] is whatever the Tencent Cloud client raises while
    the call is made or the response is iterated; its text is opaque. *)
Inductive exn :=
| WaveError (msg : string)        (* wave.Error *)
| StructError (msg : string)      (* struct.error *)
| BinasciiError (msg : string)    (* binascii.Error, a ValueError *)
| ValueError (msg : string)
| TypeError (msg : string)
| AttributeError (msg : string)
| Upstream (msg : string).

Definition exn_str (e : exn) : string :=
  match e with
  | WaveError m | StructError m | BinasciiError m | ValueError m
  | TypeError m | AttributeError m | Upstream m => m
  end.

(** Outcome of a call: a value or a raised exception. *)
Inductive result (A : Type) :=
| Ok (a : A)
| Raise (e : exn).
Arguments Ok {A} a.
Arguments Raise {A} e.

Definition bind {A B} (r : result A) (k : A -> result B) : result B :=
  match r with
  | Ok a => k a
  | Raise e => Raise e
  end.

End Py.
Import Py.

Notation "x <- c1 ;; c2" := (Py.bind c1 (fun x => c2))
  (at level 61, c1 at next level, right associativity).

(** ** [struct.pack] *)

Module Struct.

Definition L_MAX : Z := 4294967295.
Definition H_MAX : Z := 65535.

(** [struct.pack('<L', v)]: four bytes, least significant first;
    [struct.error] outside [0, 2^32 - 1]. *)
Definition pack_L (v : Z) : result bytes :=
  if (0 <=? v) && (v <=? L_MAX)
  then Ok (le_split 4 v)
  else Raise (StructError "'L' format requires 0 <= number <= 4294967295").

(** [struct.pack('<H', v)]: two bytes; [struct.error] outside
    [0, 65535]. *)
Definition pack_H (v : Z) : result bytes :=
  if (0 <=? v) && (v <=? H_MAX)
  then Ok (le_split 2 v)
  else Raise (StructError "ushort format requires 0 <= number <= 65535").

(** [struct.unpack('<L', bs)[0]] and [struct.unpack('<H', bs)[0]], used to
    read a field back. *)
Definition unpack (bs : bytes) : Z := le_combine bs.

End Struct.

(** ** [io.BytesIO] *)

Module BytesIO.

Record t := mk { buf : bytes; pos : nat }.

Definition empty : t := mk [] 0.

(** [write]: the data replace what is at the position and extend the
    buffer past its end; a position past the end pads with zero bytes. *)
Definition write (f : t) (data : bytes) : t :=
  let before := firstn (pos f) (buf f)
                ++ repeat Byte.x00 (pos f - length (buf f))%nat in
  mk (before ++ data ++ skipn (pos f + length data) (buf f))
     (pos f + length data).

Definition tell (f : t) : nat := pos f.
Definition seek (f : t) (p : nat) : t := mk (buf f) p.
Definition getvalue (f : t) : bytes := buf f.

End BytesIO.

(** ** The writer of the [wave] module ([Wave_write]) *)

Module Wave.

Definition WAVE_FORMAT_PCM : Z := 1.

Record t := mk {
  file : BytesIO.t;
  nchannels : Z;
  sampwidth : Z;
  framerate : Z;
  nframes : Z;
  nframeswritten : Z;
  datawritten : Z;
  datalength : Z;
  headerwritten : bool;
  form_length_pos : nat;
  data_length_pos : nat
}.

(** [wave.open(buffer, "wb")], that is [initfp]. *)
Definition open (f : BytesIO.t) : t :=
  mk f 0 0 0 0 0 0 0 false 0 0.

Definition set_file (w : t) (f : BytesIO.t) : t :=
  mk f (nchannels w) (sampwidth w) (framerate w) (nframes w)
     (nframeswritten w) (datawritten w) (datalength w) (headerwritten w)
     (form_length_pos w) (data_length_pos w).

Definition setnchannels (w : t) (n : Z) : result t :=
  if negb (datawritten w =? 0)
  then Raise (WaveError "cannot change parameters after starting to write")
  else if n <? 1 then Raise (WaveError "bad # of channels")
  else Ok (mk (file w) n (sampwidth w) (framerate w) (nframes w)
              (nframeswritten w) (datawritten w) (datalength w)
              (headerwritten w) (form_length_pos w) (data_length_pos w)).

Definition setsampwidth (w : t) (n : Z) : result t :=
  if negb (datawritten w =? 0)
  then Raise (WaveError "cannot change parameters after starting to write")
  else if (n <? 1) || (4 <? n) then Raise (WaveError "bad sample width")
  else Ok (mk (file w) (nchannels w) n (framerate w) (nframes w)
              (nframeswritten w) (datawritten w) (datalength w)
              (headerwritten w) (form_length_pos w) (data_length_pos w)).

(** The rate is an [int] here, so [int(round(framerate))] is the rate. *)
Definition setframerate (w : t) (r : Z) : result t :=
  if negb (datawritten w =? 0)
  then Raise (WaveError "cannot change parameters after starting to write")
  else if r <=? 0 then Raise (WaveError "bad frame rate")
  else Ok (mk (file w) (nchannels w) (sampwidth w) r (nframes w)
              (nframeswritten w) (datawritten w) (datalength w)
              (headerwritten w) (form_length_pos w) (data_length_pos w)).

(** [struct.pack('<L4s4sLHHLLHH4s', ...)] of [_write_header]. *)
Definition pack_header (w : t) (dlen : Z) : result bytes :=
  f_len <- Struct.pack_L (36 + dlen) ;;
  f_16 <- Struct.pack_L 16 ;;
  f_tag <- Struct.pack_H WAVE_FORMAT_PCM ;;
  f_ch <- Struct.pack_H (nchannels w) ;;
  f_rate <- Struct.pack_L (framerate w) ;;
  f_brate <- Struct.pack_L (nchannels w * framerate w * sampwidth w) ;;
  f_align <- Struct.pack_H (nchannels w * sampwidth w) ;;
  f_bits <- Struct.pack_H (sampwidth w * 8) ;;
  Ok (f_len ++ list_byte_of_string "WAVE" ++ list_byte_of_string "fmt "
      ++ f_16 ++ f_tag ++ f_ch ++ f_rate ++ f_brate ++ f_align ++ f_bits
      ++ list_byte_of_string "data").

(** [_write_header]. The marker is in the file before the fields are
    packed, and [_nframes] is set before packing can fail. *)
Definition write_header (w : t) (initlength : Z) : exn * t + t :=
  let f1 := BytesIO.write (file w) (list_byte_of_string "RIFF") in
  let nfr := if nframes w =? 0
             then initlength / (nchannels w * sampwidth w)
             else nframes w in
  let dlen := nfr * nchannels w * sampwidth w in
  let flp := BytesIO.tell f1 in
  let w1 := mk f1 (nchannels w) (sampwidth w) (framerate w) nfr
               (nframeswritten w) (datawritten w) dlen false
               flp (data_length_pos w) in
  match pack_header w dlen with
  | Raise e => inl (e, w1)
  | Ok hdr =>
    let f2 := BytesIO.write f1 hdr in
    let dlp := BytesIO.tell f2 in
    match Struct.pack_L dlen with
    | Raise e => inl (e, mk f2 (nchannels w) (sampwidth w) (framerate w) nfr
                           (nframeswritten w) (datawritten w) dlen false
                           flp dlp)
    | Ok fld =>
      inr (mk (BytesIO.write f2 fld) (nchannels w) (sampwidth w)
              (framerate w) nfr (nframeswritten w) (datawritten w) dlen true
              flp dlp)
    end
  end.

(** [_ensure_header_written]. *)
Definition ensure_header_written (w : t) (datasize : Z) : exn * t + t :=
  if headerwritten w then inr w
  else if nchannels w =? 0
       then inl (WaveError "# channels not specified", w)
  else if sampwidth w =? 0
       then inl (WaveError "sample width not specified", w)
  else if framerate w =? 0
       then inl (WaveError "sampling rate not specified", w)
  else write_header w datasize.

(** [_patchheader]. *)
Definition patchheader (w : t) : exn * t + t :=
  if datawritten w =? datalength w then inr w
  else
    let curpos := BytesIO.tell (file w) in
    let f1 := BytesIO.seek (file w) (form_length_pos w) in
    match Struct.pack_L (36 + datawritten w) with
    | Raise e => inl (e, set_file w f1)
    | Ok fld1 =>
      let f2 := BytesIO.seek (BytesIO.write f1 fld1) (data_length_pos w) in
      match Struct.pack_L (datawritten w) with
      | Raise e => inl (e, set_file w f2)
      | Ok fld2 =>
        let f3 := BytesIO.seek (BytesIO.write f2 fld2) curpos in
        inr (mk f3 (nchannels w) (sampwidth w) (framerate w) (nframes w)
                (nframeswritten w) (datawritten w) (datawritten w)
                (headerwritten w) (form_length_pos w) (data_length_pos w))
      end
    end.

(** [writeframesraw]: the data go to the file as they are (no conversion
    is installed, and the host is little-endian). *)
Definition writeframesraw (w : t) (data : bytes) : exn * t + t :=
  match ensure_header_written w (Z.of_nat (length data)) with
  | inl err => inl err
  | inr w1 =>
    let nfr := Z.of_nat (length data) / (sampwidth w1 * nchannels w1) in
    inr (mk (BytesIO.write (file w1) data) (nchannels w1) (sampwidth w1)
            (framerate w1) (nframes w1) (nframeswritten w1 + nfr)
            (datawritten w1 + Z.of_nat (length data)) (datalength w1)
            (headerwritten w1) (form_length_pos w1) (data_length_pos w1))
  end.

(** [writeframes]. *)
Definition writeframes (w : t) (data : bytes) : exn * t + t :=
  match writeframesraw w data with
  | inl err => inl err
  | inr w1 =>
    if datalength w1 =? datawritten w1 then inr w1 else patchheader w1
  end.

(** [close], as far as the file's contents go. *)
Definition close (w : t) : exn * t + t :=
  match ensure_header_written w 0 with
  | inl err => inl err
  | inr w1 =>
    if datalength w1 =? datawritten w1 then inr w1 else patchheader w1
  end.

End Wave.

(** ** [pcm_to_wav] (lines 32-53) *)

(** The body of the [with] block: the three setters raise before they
    change anything, [writeframes] may have changed the writer when it
    raises. *)
Definition pcm_to_wav_body (w : Wave.t) (pcm_data : bytes)
    (sample_rate channels sample_width : Z) : exn * Wave.t + Wave.t :=
  match Wave.setnchannels w channels with
  | Raise e => inl (e, w)
  | Ok w1 =>
    match Wave.setsampwidth w1 sample_width with
    | Raise e => inl (e, w1)
    | Ok w2 =>
      match Wave.setframerate w2 sample_rate with
      | Raise e => inl (e, w2)
      | Ok w3 => Wave.writeframes w3 pcm_data
      end
    end
  end.

(** [pcm_to_wav]. Leaving the [with] block closes the writer, also when
    the body raised; an exception of [close] then takes the place of the
    body's. *)
Definition pcm_to_wav (pcm_data : bytes)
    (sample_rate channels sample_width : Z) : result bytes :=
  let wav_file := Wave.open BytesIO.empty in
  match pcm_to_wav_body wav_file pcm_data sample_rate channels
                        sample_width with
  | inr w =>
    match Wave.close w with
    | inr w' => Ok (BytesIO.getvalue (Wave.file w'))
    | inl (e, _) => Raise e
    end
  | inl (e, w) =>
    match Wave.close w with
    | inr _ => Raise e
    | inl (e', _) => Raise e'
    end
  end.

(** The defaults of the signature; [predict] passes the rate only. *)
Definition DEFAULT_SAMPLE_RATE : Z := 24000.
Definition DEFAULT_CHANNELS : Z := 1.
Definition DEFAULT_SAMPLE_WIDTH : Z := 2.

(** ** [base64.b64decode] with [validate=False] *)

Module Base64.

(** [table_a2b_base64]: the value of an alphabet character; every other
    byte maps to a value of 64 or more and is skipped. *)
Definition table_a2b (c : byte) : option Z :=
  let n := byte.unsigned c in
  if (65 <=? n) && (n <=? 90) then Some (n - 65)            (* A-Z *)
  else if (97 <=? n) && (n <=? 122) then Some (n - 71)      (* a-z *)
  else if (48 <=? n) && (n <=? 57) then Some (n + 4)        (* 0-9 *)
  else if n =? 43 then Some 62                              (* + *)
  else if n =? 47 then Some 63                              (* / *)
  else None.

Definition BASE64_PAD : Z := 61.

(** Decimal text of a count, as [%zd] prints it. *)
Definition decimal (n : nat) : string :=
  NilEmpty.string_of_uint (Nat.to_uint n).

(** The loop of [binascii.a2b_base64] in non-strict mode. [out] is what
    has been written to [bin_data] so far. The result is the final
    [quad_pos] with the output; the jump to [done] (a complete pad
    sequence ends the parse) returns position 0, which is not an error. *)
Fixpoint a2b_loop (ascii_data : bytes) (quad_pos leftchar pads : Z)
    (out : bytes) : Z * bytes :=
  match ascii_data with
  | [] => (quad_pos, out)
  | c :: rest =>
    if byte.unsigned c =? BASE64_PAD then
      if (2 <=? quad_pos) && (4 <=? quad_pos + (pads + 1))
      then (0, out)
      else a2b_loop rest quad_pos leftchar
                    (if 2 <=? quad_pos then pads + 1 else pads) out
    else
      match table_a2b c with
      | None => a2b_loop rest quad_pos leftchar pads out
      | Some this_ch =>
        if quad_pos =? 0 then a2b_loop rest 1 this_ch 0 out
        else if quad_pos =? 1 then
          a2b_loop rest 2 (Z.land this_ch 15) 0
            (out ++ [byte.of_Z (Z.lor (Z.shiftl leftchar 2)
                                      (Z.shiftr this_ch 4))])
        else if quad_pos =? 2 then
          a2b_loop rest 3 (Z.land this_ch 3) 0
            (out ++ [byte.of_Z (Z.lor (Z.shiftl leftchar 4)
                                      (Z.shiftr this_ch 2))])
        else
          a2b_loop rest 0 0 0
            (out ++ [byte.of_Z (Z.lor (Z.shiftl leftchar 6) this_ch)])
      end
  end.

(** [binascii.a2b_base64(s, strict_mode=False)]. *)
Definition a2b_base64 (s : bytes) : result bytes :=
  let '(quad_pos, out) := a2b_loop s 0 0 0 [] in
  if quad_pos =? 0 then Ok out
  else if quad_pos =? 1 then
    Raise (BinasciiError
      ("Invalid base64-encoded string: number of data characters ("
       ++ decimal (length out / 3 * 4 + 1)
       ++ ") cannot be 1 more than a multiple of 4"))
  else Raise (BinasciiError "Incorrect padding").

(** A [str] is held as its UTF-8 bytes: it encodes to ASCII when no byte
    has the high bit. *)
Definition is_ascii (s : string) : bool :=
  forallb (fun c => byte.unsigned c <? 128) (list_byte_of_string s).

(** [b64decode] of a [str] argument ([_bytes_from_decode_data] then
    [a2b_base64]). *)
Definition b64decode_str (s : string) : result bytes :=
  if is_ascii s then a2b_base64 (list_byte_of_string s)
  else Raise (ValueError
                "string argument should contain only ASCII characters").

End Base64.

(** ** What [json.loads] returns *)

Module Json.

(** A [float] matters here through its truth value only: zero or not. *)
#[warnings="-register-all"]
Inductive json :=
| JNone
| JBool (b : bool)
| JInt (n : Z)
| JFloat (f : spec_float)
| JStr (s : string)
| JList (l : list json)
| JDict (d : list (string * json)).

(** A [dict] is held as an association list in which the first binding of
    a key is its value. *)
Fixpoint lookup (d : list (string * json)) (k : string) : option json :=
  match d with
  | [] => None
  | (k', v) :: d' => if String.eqb k k' then Some v else lookup d' k
  end.

(** [d.get(k)]: [None] when the key is absent. *)
Definition get (d : list (string * json)) (k : string) : json :=
  match lookup d k with
  | Some v => v
  | None => JNone
  end.

(** [bool(v)]. *)
Definition truthy (v : json) : bool :=
  match v with
  | JNone => false
  | JBool b => b
  | JInt n => negb (n =? 0)
  | JFloat f => match f with S754_zero _ => false | _ => true end
  | JStr s => negb (String.eqb s "")
  | JList l => match l with [] => false | _ => true end
  | JDict d => match d with [] => false | _ => true end
  end.

(** [v == s] for a string literal [s]. *)
Definition eq_str (v : json) (s : string) : bool :=
  match v with
  | JStr s' => String.eqb s' s
  | _ => false
  end.

(** [type(v).__name__]. *)
Definition type_name (v : json) : string :=
  match v with
  | JNone => "NoneType"
  | JBool _ => "bool"
  | JInt _ => "int"
  | JFloat _ => "float"
  | JStr _ => "str"
  | JList _ => "list"
  | JDict _ => "dict"
  end.

End Json.
Import Json.

(** [base64.b64decode(v)] for a value out of a parsed object. *)
Definition b64decode (v : json) : result bytes :=
  match v with
  | JStr s => Base64.b64decode_str s
  | _ => Raise (TypeError
           ("argument should be a bytes-like object or ASCII string, not '"
            ++ type_name v ++ "'"))
  end.

(** ** [Predictor.predict], from the call of the streaming API on
    (lines 172-219) *)

Module Predictor.

(** One item of the response, as the loop sees it. The client yields
    dicts whose ["data"] value is text, so an item is told apart by what
    [json.loads] makes of that text. *)
Inductive event :=
| NoData              (* not a dict, or a dict without "data" *)
| BadJson             (* json.loads raises JSONDecodeError on the text *)
| Json (data : json). (* json.loads returns data *)

(** Pulling the next item of [resp] yields an event or raises; the call
    [client.TextToSpeechSSE(req)] raising is a response whose first pull
    raises. *)
Inductive item :=
| Yield (e : event)
| Fault (msg : string).

(** How one pass through the loop body (lines 177-185) ends. *)
Inductive step :=
| Continue (audio_chunks : list bytes)   (* next item *)
| Break (audio_chunks : list bytes)      (* line 183 *)
| Escape (e : exn).                      (* not caught by line 184 *)

Definition loop_body (audio_chunks : list bytes) (ev : event) : step :=
  match ev with
  | NoData => Continue audio_chunks
  | BadJson => Continue audio_chunks
  | Json (JDict d) =>
    if eq_str (get d "Type") "audio" && truthy (get d "Audio") then
      match lookup d "Audio" with
      | None => Continue audio_chunks          (* KeyError: continue *)
      | Some a =>
        match b64decode a with
        | Raise e => Escape e
        | Ok chunk =>
          if truthy (get d "IsEnd")
          then Break (audio_chunks ++ [chunk])
          else Continue (audio_chunks ++ [chunk])
        end
      end
    else if truthy (get d "IsEnd") then Break audio_chunks
    else Continue audio_chunks
  | Json data =>
    Escape (AttributeError
              ("'" ++ type_name data ++ "' object has no attribute 'get'"))
  end.

(** State when the [try] statement is left: the chunks collected, the
    items never pulled, and the exception on its way to line 186, if
    any. *)
Record loop_exit := mk_exit {
  chunks : list bytes;
  unread : list item;
  raised : option exn
}.

(** The [for] loop of lines 176-185 over the response. *)
Fixpoint consume (resp : list item) (audio_chunks : list bytes)
    : loop_exit :=
  match resp with
  | [] => mk_exit audio_chunks [] None
  | Fault msg :: rest => mk_exit audio_chunks rest (Some (Upstream msg))
  | Yield ev :: rest =>
    match loop_body audio_chunks ev with
    | Continue acc => consume rest acc
    | Break acc => mk_exit acc rest None
    | Escape e => mk_exit audio_chunks rest (Some e)
    end
  end.

(** [needle in hay]. *)
Fixpoint contains (needle hay : string) : bool :=
  String.prefix needle hay
  || match hay with
     | EmptyString => false
     | String _ hay' => contains needle hay'
     end.

(** The five places where [predict] raises [RuntimeError] after the
    request is built, named as the specification names them. *)
Inductive ErrorKind :=
| AuthFailure            (* line 190 *)
| InvalidParameter       (* line 195 *)
| RateLimited            (* line 197 *)
| UnknownUpstreamError   (* line 201 *)
| EmptyAudio.            (* line 205 *)

Definition AUTH_MESSAGE : string :=
  "Authentication failed. Please check your SecretId, SecretKey, and SdkAppId.".
Definition RATE_MESSAGE : string :=
  "Rate limit exceeded. Please try again later.".
Definition EMPTY_MESSAGE : string :=
  "No audio data received from upstream API. Please check your credentials and parameters.".

(** The handler of lines 186-201, from [error_msg = str(e)] to the
    [RuntimeError] raised. *)
Definition handler (error_msg : string) : ErrorKind * string :=
  if contains "AuthFailure" error_msg then (AuthFailure, AUTH_MESSAGE)
  else if contains "InvalidParameter" error_msg
  then (InvalidParameter, ("Invalid parameter: " ++ error_msg)%string)
  else if contains "RequestLimitExceeded" error_msg
  then (RateLimited, RATE_MESSAGE)
  else (UnknownUpstreamError, ("TTS API error: " ++ error_msg)%string).

(** [sample_rate] is an input with [choices=[16000, 24000]]. *)
Inductive sample_rate := Hz16000 | Hz24000.

Definition hz (sr : sample_rate) : Z :=
  match sr with
  | Hz16000 => 16000
  | Hz24000 => 24000
  end.

(** How [predict] ends. *)
Inductive outcome :=
| Returned (output_path : string)
| RuntimeError (kind : ErrorKind) (msg : string)
| Propagated (e : exn).   (* raised by [pcm_to_wav], outside the [try] *)

(** The file system, as far as [predict] touches it: the contents of the
    files it knows by path. *)
Definition files := list (string * bytes).

Definition OUTPUT_PATH : string := "/tmp/output.wav".

(** [open(path, "wb")] then [write]: the file has the data, whatever it
    had. *)
Definition write_file (fs : files) (path : string) (data : bytes)
    : files :=
  (path, data) :: filter (fun e => negb (String.eqb (fst e) path)) fs.

Fixpoint read_file (fs : files) (path : string) : option bytes :=
  match fs with
  | [] => None
  | (p, data) :: fs' => if String.eqb path p then Some data
                        else read_file fs' path
  end.

(** Lines 203-219, from the chunks the loop left. *)
Definition finalize (sr : sample_rate) (audio_chunks : list bytes)
    (fs : files) : outcome * files :=
  match audio_chunks with
  | [] => (RuntimeError EmptyAudio EMPTY_MESSAGE, fs)
  | _ =>
    let pcm_data := concat audio_chunks in
    match pcm_to_wav pcm_data (hz sr) DEFAULT_CHANNELS
                     DEFAULT_SAMPLE_WIDTH with
    | Raise e => (Propagated e, fs)
    | Ok wav_data =>
      (Returned OUTPUT_PATH, write_file fs OUTPUT_PATH wav_data)
    end
  end.

(** [predict] from line 172 on. *)
Definition predict (sr : sample_rate) (resp : list item) (fs : files)
    : outcome * files :=
  let x := consume resp [] in
  match raised x with
  | Some e =>
    let '(kind, msg) := handler (exn_str e) in
    (RuntimeError kind msg, fs)
  | None => finalize sr (chunks x) fs
  end.

(** The [pcm_data] of line 211, when [predict] gets there. *)
Definition payload (resp : list item) : option bytes :=
  let x := consume resp [] in
  match raised x, chunks x with
  | None, _ :: _ => Some (concat (chunks x))
  | _, _ => None
  end.

End Predictor.

(** * Properties *)

(** ** The container layout *)

Module Layout.

(** The format sub-block: its marker, its size field and its sixteen
    bytes. *)
Definition fmt_chunk (sample_rate channels sample_width : Z) : bytes :=
  list_byte_of_string "fmt " ++ le_split 4 16
  ++ le_split 2 Wave.WAVE_FORMAT_PCM ++ le_split 2 channels
  ++ le_split 4 sample_rate
  ++ le_split 4 (channels * sample_rate * sample_width)
  ++ le_split 2 (channels * sample_width) ++ le_split 2 (sample_width * 8).

(** The 44 bytes in front of a payload of [n] bytes. *)
Definition wav_header (sample_rate channels sample_width n : Z) : bytes :=
  list_byte_of_string "RIFF" ++ le_split 4 (36 + n)
  ++ list_byte_of_string "WAVE"
  ++ fmt_chunk sample_rate channels sample_width
  ++ list_byte_of_string "data" ++ le_split 4 n.

(** What lies between the two size fields of the header. *)
Definition header_mid (sample_rate : Z) : bytes :=
  list_byte_of_string "WAVE" ++ fmt_chunk sample_rate 1 2
  ++ list_byte_of_string "data".

(** Bytes [i] to [j - 1] of a container. *)
Definition slice (i j : nat) (bs : bytes) : bytes :=
  firstn (j - i) (skipn i bs).

(** The data region a reader extracts: the bytes after the header, as many
    as the data-size field declares. *)
Definition data_region (wav : bytes) : bytes :=
  firstn (Z.to_nat (Struct.unpack (slice 40 44 wav))) (skipn 44 wav).

(** The largest payload and sample rate the size fields can hold. *)
Definition MAX_PAYLOAD : Z := 4294967259.
Definition MAX_RATE : Z := 2147483647.

(** A payload one byte past what the size fields can hold. *)
Definition oversized_payload : bytes :=
  repeat Byte.x00 (Z.to_nat (MAX_PAYLOAD + 1)).

End Layout.
Import Layout.


(** ** Reading a response *)

Module Events.
Import Predictor.

(** The event carries the end-of-response flag. *)
Definition carries_end (ev : event) : bool :=
  match ev with
  | Json (JDict d) => truthy (get d "IsEnd")
  | _ => false
  end.

(** The event bears audio: the test of line 180. *)
Definition audio_bearing (ev : event) : bool :=
  match ev with
  | Json (JDict d) => eq_str (get d "Type") "audio" && truthy (get d "Audio")
  | _ => false
  end.

(** The event is one the loop passes over: line 177 fails, or the text
    is not JSON. *)
Definition skipped (ev : event) : bool :=
  match ev with
  | NoData | BadJson => true
  | Json _ => false
  end.

(** The decoded contents of an audio-bearing event, when its [Audio]
    decodes. *)
Definition decoded (ev : event) : option bytes :=
  match ev with
  | Json (JDict d) =>
    if audio_bearing ev then
      match lookup d "Audio" with
      | Some a => match b64decode a with
                  | Ok chunk => Some chunk
                  | Raise _ => None
                  end
      | None => None
      end
    else None
  | _ => None
  end.

(** The decoded contents of the audio-bearing events of a response, in
    the order of the response. *)
Fixpoint frames (resp : list item) : list bytes :=
  match resp with
  | [] => []
  | Yield ev :: rest =>
    match decoded ev with
    | Some chunk => chunk :: frames rest
    | None => frames rest
    end
  | Fault _ :: rest => frames rest
  end.

(** The response up to and including its first event with the end flag. *)
Fixpoint until_end (resp : list item) : list item :=
  match resp with
  | [] => []
  | Yield ev :: rest =>
    if carries_end ev then [Yield ev] else Yield ev :: until_end rest
  | Fault msg :: rest => Fault msg :: until_end rest
  end.

(** No event of the response carries the end flag. *)
Definition no_end (resp : list item) : bool :=
  forallb (fun it => match it with
                     | Yield ev => negb (carries_end ev)
                     | Fault _ => true
                     end) resp.

(** An item the loop gets through without an exception leaving it: an
    event that is skipped, or an object whose audio, if it bears any,
    decodes. *)
Definition passes (it : item) : bool :=
  match it with
  | Fault _ => false
  | Yield NoData | Yield BadJson => true
  | Yield (Json (JDict d)) =>
    if audio_bearing (Json (JDict d))
    then match decoded (Json (JDict d)) with Some _ => true | None => false end
    else true
  | Yield (Json _) => false
  end.

(** An audio event with the given base64 text, a closing event, and an
    audio event that also closes. *)
Definition audio_event (a : string) : item :=
  Yield (Json (JDict [("Type"%string, JStr "audio"); ("Audio"%string, JStr a)])).
Definition end_event : item :=
  Yield (Json (JDict [("Type"%string, JStr "end"); ("IsEnd"%string, JBool true)])).

(** What an event adds to the chunks when the loop gets through it. *)
Definition frame_of (ev : event) : list bytes :=
  match decoded ev with
  | Some chunk => [chunk]
  | None => []
  end.

(** The events of scenario A: two frames around a line that is not
    JSON, then the end. *)
Definition scenario_A : list item :=
  [audio_event "QUJDRA=="; Yield BadJson; audio_event "RUZHSA==";
   end_event].

(** A frame, the end, and a frame after the end. *)
Definition frame_after_end : list item :=
  [audio_event "QUJDRA=="; end_event; audio_event "RUZHSA=="].

(** Scenario A with a frame whose base64 text lacks its padding in the
    place of the line that is not JSON. *)
Definition bad_padding_response : list item :=
  [audio_event "QUJDRA=="; audio_event "QUJDRA"; audio_event "RUZHSA==";
   end_event].

(** Two events without audio around an event whose text is the JSON
    value null. *)
Definition null_payload_response : list item :=
  [Yield BadJson; Yield (Json JNone); end_event].

(** The text of a client exception that quotes the caller's SecretId and
    has none of the three markers. *)
Definition LEAKED_ID : string := "AKIDz8krbsJ5yKBZQpn74WFkmLPx3EXAMPLE".
Definition leaking_fault : string :=
  "[TencentCloudSDKException] code:ClientNetworkError "
  ++ "message:request signed with SecretId " ++ LEAKED_ID
  ++ " could not be sent requestId:None".

(** The base64 text of [3 * k] zero bytes, and a frame of 2147483631
    zero bytes: two of them are past what a container holds. *)
Definition zero_quads (k : nat) : string :=
  string_of_list_byte (concat (repeat (list_byte_of_string "AAAA") k)).
Definition HALF_QUADS : Z := 715827877.
Definition oversized_frame : string := zero_quads (Z.to_nat HALF_QUADS).

End Events.
Import Events.

(** ** The text to synthesize *)

Module Text.

(** The text is a [str]: a sequence of code points, which [len] counts. *)
Definition str := list Z.

(** [chr(c).isspace()]: the code points [strip] removes. *)
Definition isspace (c : Z) : bool :=
  ((9 <=? c) && (c <=? 13))             (* tab, LF, VT, FF, CR *)
  || ((28 <=? c) && (c <=? 32))         (* FS, GS, RS, US, space *)
  || (c =? 133) || (c =? 160)           (* NEL, no-break space *)
  || (c =? 5760)                        (* ogham space mark *)
  || ((8192 <=? c) && (c <=? 8202))     (* en quad to hair space *)
  || (c =? 8232) || (c =? 8233)         (* line, paragraph separator *)
  || (c =? 8239) || (c =? 8287)         (* narrow no-break, math space *)
  || (c =? 12288).                      (* ideographic space *)

(** [s.lstrip()], [s.rstrip()] and [s.strip()]. *)
Fixpoint lstrip (s : str) : str :=
  match s with
  | [] => []
  | c :: s' => if isspace c then lstrip s' else s
  end.

Definition rstrip (s : str) : str := rev (lstrip (rev s)).

Definition strip (s : str) : str := rstrip (lstrip s).

End Text.

(** ** [Predictor.predict] as it is called (lines 71-219) *)

Module Entry.

Definition MODEL : string := "flow_01_turbo".
Definition ENDPOINT : string := "trtc.ai.tencentcloudapi.com".
Definition REGION : string := "ap-beijing".
Definition MAX_TEXT_LENGTH : Z := 2000.

(** [language] is an input with six choices. *)
Inductive language_choice := Zh | En | Yue | Ja | Ko | Auto.

Definition language_str (l : language_choice) : string :=
  match l with
  | Zh => "zh" | En => "en" | Yue => "yue" | Ja => "ja" | Ko => "ko"
  | Auto => "auto"
  end.

(** The arguments of [predict]; the two secrets are held by their
    values. *)
Record inputs := mk_inputs {
  text : Text.str;
  secret_id : string;
  secret_key : string;
  sdk_app_id : Z;
  voice_id : string;
  speed : spec_float;
  volume : spec_float;
  pitch : Z;
  language : language_choice;
  sample_rate : Predictor.sample_rate;
  timeout : Z
}.

(** Lines 129-136. *)
Definition check_text (t : Text.str) : result unit :=
  if match t with [] => true | _ => false end
     || match Text.strip t with [] => true | _ => false end
  then Raise (ValueError "Text cannot be empty")
  else if MAX_TEXT_LENGTH <? Z.of_nat (length t)
  then Raise (ValueError
                ("Text too long: " ++ Base64.decimal (length t)
                 ++ " characters (max "
                 ++ Base64.decimal (Z.to_nat MAX_TEXT_LENGTH) ++ ")"))
  else Ok tt.

(** The client of lines 138-150, by what it is built from. *)
Record client := mk_client {
  credential : string * string;
  region : string;
  endpoint : string;
  reqTimeout : Z
}.

Definition make_client (i : inputs) : client :=
  mk_client (secret_id i, secret_key i) REGION ENDPOINT (timeout i).

(** The [params] of lines 154-169, which the request is loaded from. *)
Record voice_params := mk_voice {
  VoiceId : string;
  Speed : spec_float;
  Volume : spec_float;
  Pitch : Z;
  Language : string
}.

Record audio_format_params := mk_audio_format {
  Format : string;
  SampleRate : Z
}.

Record params := mk_params {
  Model : string;
  Text : Text.str;
  Voice : voice_params;
  AudioFormat : audio_format_params;
  SdkAppId : Z
}.

Definition make_params (i : inputs) : params :=
  mk_params MODEL (Text.strip (text i))
            (mk_voice (voice_id i) (speed i) (volume i) (pitch i)
                      (language_str (language i)))
            (mk_audio_format "pcm" (Predictor.hz (sample_rate i)))
            (sdk_app_id i).

(** [predict]. What the call of line 174 gives for a client and a request
    is not the program's to decide: [TextToSpeechSSE] is any function. An
    exception of the input checks leaves [predict] as it is. *)
Definition predict
    (TextToSpeechSSE : client -> params -> list Predictor.item)
    (i : inputs) (fs : Predictor.files)
    : Predictor.outcome * Predictor.files :=
  match check_text (text i) with
  | Raise e => (Predictor.Propagated e, fs)
  | Ok _ =>
    Predictor.predict (sample_rate i)
                      (TextToSpeechSSE (make_client i) (make_params i)) fs
  end.

End Entry.

(** A request as [predict] may send it: the constants of the program, a
    text that is not empty, has no white space at either end and has at
    most 2000 code points. *)
Definition well_formed_request (c : Entry.client) (p : Entry.params)
    : Prop :=
  Entry.region c = Entry.REGION
  /\ Entry.endpoint c = Entry.ENDPOINT
  /\ Entry.Model p = Entry.MODEL
  /\ Entry.Format (Entry.AudioFormat p) = "pcm"%string
  /\ Entry.Text p <> []
  /\ Z.of_nat (length (Entry.Text p)) <= Entry.MAX_TEXT_LENGTH
  /\ (forall c0 rest, Entry.Text p = c0 :: rest -> Text.isspace c0 = false)
  /\ (forall c0 front, Entry.Text p = front ++ [c0] ->
                       Text.isspace c0 = false).

(** A call with the defaults of the signature for what is optional. *)
Definition with_defaults (text : Text.str) (secret_id secret_key : string)
    (sdk_app_id : Z) : Entry.inputs :=
  Entry.mk_inputs text secret_id secret_key sdk_app_id "v-female-R2s4N9qJ"
                  (S754_finite false 1 0) (S754_finite false 1 0) 0
                  Entry.Zh Predictor.Hz24000 120.

(** The code points of " Hi ", and a service that answers any request
    with scenario A. *)
Definition padded_hi : Text.str := [32; 72; 105; 32].
Definition answers_scenario_A (c : Entry.client) (p : Entry.params)
    : list Predictor.item := scenario_A.

(** 2000 letters and a space after them. *)
Definition full_length_padded : Text.str := repeat 97 2000 ++ [32].

Section Encoder.

Lemma pack_L_ok v :
  0 <= v <= Struct.L_MAX -> Struct.pack_L v = Ok (le_split 4 v).
Proof.
  intros H. unfold Struct.pack_L.
  destruct (Z.leb_spec 0 v), (Z.leb_spec v Struct.L_MAX); try lia.
  reflexivity.
Qed.

Lemma pack_L_overflow v :
  Struct.L_MAX < v -> exists m, Struct.pack_L v = Raise (StructError m).
Proof.
  intros H. unfold Struct.pack_L.
  destruct (Z.leb_spec v Struct.L_MAX); try lia.
  rewrite andb_false_r. eauto.
Qed.

Lemma pack_H_ok v :
  0 <= v <= Struct.H_MAX -> Struct.pack_H v = Ok (le_split 2 v).
Proof.
  intros H. unfold Struct.pack_H.
  destruct (Z.leb_spec 0 v), (Z.leb_spec v Struct.H_MAX); try lia.
  reflexivity.
Qed.

(** Writing at the end of the file appends. *)
Lemma write_end buf data :
  BytesIO.write (BytesIO.mk buf (length buf)) data
  = BytesIO.mk (buf ++ data) (length (buf ++ data)).
Proof.
  unfold BytesIO.write. cbn [BytesIO.pos BytesIO.buf].
  rewrite Nat.sub_diag, firstn_all. cbn [repeat].
  rewrite app_nil_r, skipn_all2 by lia.
  now rewrite app_nil_r, length_app.
Qed.

(** Writing inside the file replaces as many bytes as are written. *)
Lemma write_over pre old post data :
  length old = length data ->
  BytesIO.write (BytesIO.mk (pre ++ old ++ post) (length pre)) data
  = BytesIO.mk (pre ++ data ++ post) (length pre + length data).
Proof.
  intros H. unfold BytesIO.write. cbn [BytesIO.pos BytesIO.buf]. f_equal.
  rewrite firstn_app, firstn_all, Nat.sub_diag, firstn_O, app_nil_r.
  replace (length pre - length (pre ++ old ++ post))%nat with 0%nat
    by (rewrite !length_app; lia).
  cbn [repeat]. rewrite app_nil_r. f_equal. f_equal.
  rewrite skipn_app, skipn_all2 by lia. cbn [app].
  replace (length pre + length data - length pre)%nat with (length old)
    by lia.
  rewrite skipn_app, skipn_all, Nat.sub_diag. reflexivity.
Qed.

Lemma wav_header_length sr ch sw n :
  length (wav_header sr ch sw n) = 44%nat.
Proof.
  unfold wav_header, fmt_chunk.
  rewrite !length_app, !length_le_split. reflexivity.
Qed.

Ltac wave_fields :=
  cbn [Wave.datawritten Wave.file Wave.nchannels Wave.sampwidth
       Wave.framerate Wave.nframes Wave.nframeswritten Wave.datalength
       Wave.headerwritten Wave.form_length_pos Wave.data_length_pos].

(** [_write_header] on a fresh mono 16-bit writer, when the fields fit. *)
Lemma write_header_ok sr dl0 init :
  0 < sr -> 2 * sr <= Struct.L_MAX ->
  dl0 = init / 2 * 2 -> 0 <= dl0 -> 36 + dl0 <= Struct.L_MAX ->
  Wave.write_header (Wave.mk (BytesIO.mk [] 0) 1 2 sr 0 0 0 0 false 0 0)
                    init
  = inr (Wave.mk (BytesIO.mk (wav_header sr 1 2 dl0) 44) 1 2 sr (init / 2)
                 0 0 dl0 true 4 40).
Proof.
  intros Hsr Hsr2 Hdl Hdl0 Hfit.
  unfold Wave.write_header, Wave.pack_header. wave_fields.
  change (0 =? 0) with true. cbv iota.
  change (1 * 2) with 2.
  replace (init / 2 * 1 * 2) with dl0 by lia.
  replace (1 * sr * 2) with (2 * sr) by lia.
  unfold Struct.L_MAX in *.
  rewrite !pack_L_ok by (unfold Struct.L_MAX; lia).
  unfold Wave.WAVE_FORMAT_PCM.
  rewrite !pack_H_ok by (unfold Struct.H_MAX; lia).
  cbn [bind].
  change (BytesIO.mk [] 0) with (BytesIO.mk [] (length (@nil byte))).
  rewrite !write_end. unfold BytesIO.tell. cbn [BytesIO.pos].
  assert (Hbuf : (([] ++ list_byte_of_string "RIFF") ++
      le_split 4 (36 + dl0) ++ list_byte_of_string "WAVE" ++
      list_byte_of_string "fmt " ++ le_split 4 16 ++ le_split 2 1 ++
      le_split 2 1 ++ le_split 4 sr ++ le_split 4 (2 * sr) ++
      le_split 2 2 ++ le_split 2 (2 * 8) ++ list_byte_of_string "data") ++
      le_split 4 dl0 = wav_header sr 1 2 dl0).
  { unfold wav_header, fmt_chunk, Wave.WAVE_FORMAT_PCM.
    rewrite app_nil_l, <- !app_assoc.
    replace (1 * sr * 2) with (2 * sr) by lia. reflexivity. }
  rewrite Hbuf, wav_header_length. reflexivity.
Qed.

Lemma wav_header_split sr n :
  wav_header sr 1 2 n
  = list_byte_of_string "RIFF" ++ le_split 4 (36 + n) ++ header_mid sr
    ++ le_split 4 n.
Proof. unfold wav_header, header_mid. now rewrite <- !app_assoc. Qed.

(** [_patchheader] rewrites the two size fields and nothing else. *)
Lemma patchheader_ok sr dl0 n pcm p nf nfw :
  n <> dl0 -> 0 <= n -> 36 + n <= Struct.L_MAX ->
  Wave.patchheader
    (Wave.mk (BytesIO.mk (wav_header sr 1 2 dl0 ++ pcm) p) 1 2 sr nf nfw
             n dl0 true 4 40)
  = inr (Wave.mk (BytesIO.mk (wav_header sr 1 2 n ++ pcm) p) 1 2 sr nf nfw
                 n n true 4 40).
Proof.
  intros Hne Hn0 Hfit. unfold Wave.patchheader. wave_fields.
  destruct (Z.eqb_spec n dl0); [contradiction|].
  unfold Struct.L_MAX in *.
  rewrite !pack_L_ok by (unfold Struct.L_MAX; lia).
  unfold BytesIO.seek, BytesIO.tell. cbn [BytesIO.buf BytesIO.pos].
  rewrite !wav_header_split, <- !app_assoc.
  rewrite (write_over (list_byte_of_string "RIFF") (le_split 4 (36 + dl0))
             _ (le_split 4 (36 + n)))
    by (now rewrite !length_le_split).
  cbn [BytesIO.buf BytesIO.pos].
  assert (Hw : BytesIO.write
                 (BytesIO.mk (list_byte_of_string "RIFF"
                              ++ le_split 4 (36 + n) ++ header_mid sr
                              ++ le_split 4 dl0 ++ pcm) 40)
                 (le_split 4 n)
               = BytesIO.mk (list_byte_of_string "RIFF"
                             ++ le_split 4 (36 + n) ++ header_mid sr
                             ++ le_split 4 n ++ pcm) 44).
  { pose proof (write_over
                  (list_byte_of_string "RIFF" ++ le_split 4 (36 + n)
                   ++ header_mid sr)
                  (le_split 4 dl0) pcm (le_split 4 n)) as H.
    rewrite <- !app_assoc in H. apply H. now rewrite !length_le_split. }
  match goal with
  | |- context [BytesIO.write ?f (le_split 4 n)] =>
    replace (BytesIO.write f (le_split 4 n))
      with (BytesIO.mk (list_byte_of_string "RIFF"
                        ++ le_split 4 (36 + n) ++ header_mid sr
                        ++ le_split 4 n ++ pcm) 44)
      by (symmetry; exact Hw)
  end.
  cbn [BytesIO.buf BytesIO.pos]. reflexivity.
Qed.

Lemma pcm_to_wav_body_ok pcm sr :
  0 < sr ->
  pcm_to_wav_body (Wave.open BytesIO.empty) pcm sr 1 2
  = Wave.writeframes
      (Wave.mk (BytesIO.mk [] 0) 1 2 sr 0 0 0 0 false 0 0) pcm.
Proof.
  intros Hsr. unfold pcm_to_wav_body, Wave.open, BytesIO.empty.
  unfold Wave.setnchannels at 1. wave_fields.
  change (negb (0 =? 0)) with false. change (1 <? 1) with false.
  cbv iota beta.
  unfold Wave.setsampwidth at 1. wave_fields.
  change (negb (0 =? 0)) with false.
  change ((2 <? 1) || (4 <? 2)) with false. cbv iota beta.
  unfold Wave.setframerate at 1. wave_fields.
  change (negb (0 =? 0)) with false. cbv iota beta.
  destruct (Z.leb_spec sr 0); [lia|]. reflexivity.
Qed.

(** The encoder on a payload and a rate that fit the size fields: the
    header for the payload's length, then the payload. *)
Lemma pcm_to_wav_ok pcm sr :
  0 < sr <= MAX_RATE ->
  Z.of_nat (length pcm) <= MAX_PAYLOAD ->
  pcm_to_wav pcm sr 1 2
  = Ok (wav_header sr 1 2 (Z.of_nat (length pcm)) ++ pcm).
Proof.
  unfold MAX_RATE, MAX_PAYLOAD. intros Hsr Hn.
  set (n := Z.of_nat (length pcm)) in *.
  assert (Hn0 : 0 <= n) by (subst n; lia).
  assert (Hdiv : 0 <= n / 2 * 2 <= n).
  { pose proof (Z.mul_div_le n 2). pose proof (Z.div_pos n 2). lia. }
  unfold pcm_to_wav. rewrite pcm_to_wav_body_ok by lia.
  unfold Wave.writeframes, Wave.writeframesraw, Wave.ensure_header_written.
  wave_fields.
  change (1 =? 0) with false. change (2 =? 0) with false. cbv iota beta.
  destruct (Z.eqb_spec sr 0); [lia|].
  fold n.
  rewrite (write_header_ok sr (n / 2 * 2) n)
    by (unfold Struct.L_MAX; lia).
  wave_fields.
  replace 44%nat with (length (wav_header sr 1 2 (n / 2 * 2)))
    by apply wav_header_length.
  rewrite write_end. change (0 + n) with n.
  unfold Wave.close, Wave.ensure_header_written.
  destruct (Z.eqb_spec (n / 2 * 2) n) as [He|Hne].
  - wave_fields. rewrite He, Z.eqb_refl. reflexivity.
  - rewrite patchheader_ok by (unfold Struct.L_MAX; lia).
    wave_fields. rewrite Z.eqb_refl. reflexivity.
Qed.

(** A payload too long for the size fields: packing the header raises,
    and so does the attempt [close] makes when the block is left. *)
Lemma pcm_to_wav_too_long pcm sr :
  0 < sr ->
  MAX_PAYLOAD < Z.of_nat (length pcm) ->
  exists m, pcm_to_wav pcm sr 1 2 = Raise (StructError m).
Proof.
  unfold MAX_PAYLOAD. intros Hsr Hn.
  set (n := Z.of_nat (length pcm)) in *.
  assert (Hdiv : n - 1 <= n / 2 * 2).
  { pose proof (Z.div_mod n 2 ltac:(lia)).
    pose proof (Z.mod_pos_bound n 2 ltac:(lia)). lia. }
  assert (Hnf : n / 2 <> 0) by lia.
  destruct (pack_L_overflow (36 + n / 2 * 2)) as [m1 Hm1];
    [unfold Struct.L_MAX; lia|].
  unfold pcm_to_wav. rewrite pcm_to_wav_body_ok by lia.
  unfold Wave.writeframes, Wave.writeframesraw, Wave.ensure_header_written.
  wave_fields.
  change (1 =? 0) with false. change (2 =? 0) with false. cbv iota beta.
  destruct (Z.eqb_spec sr 0); [lia|].
  fold n. unfold Wave.write_header at 1, Wave.pack_header. wave_fields.
  change (0 =? 0) with true. cbv iota. change (1 * 2) with 2.
  replace (n / 2 * 1 * 2) with (n / 2 * 2) by lia.
  rewrite Hm1. cbn [bind].
  unfold Wave.close, Wave.ensure_header_written. wave_fields.
  change (1 =? 0) with false. change (2 =? 0) with false. cbv iota beta.
  destruct (Z.eqb_spec sr 0); [lia|].
  unfold Wave.write_header, Wave.pack_header. wave_fields.
  destruct (Z.eqb_spec (n / 2) 0); [lia|].
  replace (n / 2 * 1 * 2) with (n / 2 * 2) by lia.
  rewrite Hm1. cbn [bind]. eauto.
Qed.

(** Reading the header back. *)
Lemma unpack_le_split_4 v :
  0 <= v <= Struct.L_MAX -> Struct.unpack (le_split 4 v) = v.
Proof.
  unfold Struct.L_MAX, Struct.unpack. intros H.
  rewrite le_combine_split. apply Z.mod_small. cbn. lia.
Qed.

Lemma unpack_le_split_2 v :
  0 <= v <= Struct.H_MAX -> Struct.unpack (le_split 2 v) = v.
Proof.
  unfold Struct.H_MAX, Struct.unpack. intros H.
  rewrite le_combine_split. apply Z.mod_small. cbn. lia.
Qed.

Lemma skipn_header sr n pcm :
  skipn 44 (wav_header sr 1 2 n ++ pcm) = pcm.
Proof.
  rewrite skipn_app, wav_header_length, Nat.sub_diag.
  rewrite skipn_all2 by (rewrite wav_header_length; lia).
  reflexivity.
Qed.

Lemma data_region_header sr n pcm :
  n = Z.of_nat (length pcm) -> n <= MAX_PAYLOAD ->
  data_region (wav_header sr 1 2 n ++ pcm) = pcm.
Proof.
  unfold MAX_PAYLOAD. intros Hn Hle. unfold data_region.
  rewrite skipn_header.
  change (slice 40 44 (wav_header sr 1 2 n ++ pcm)) with (le_split 4 n).
  rewrite unpack_le_split_4 by (unfold Struct.L_MAX; lia).
  subst n. rewrite Nat2Z.id. apply firstn_all.
Qed.

End Encoder.

(** ** The container encoder (claims C2 and C6) *)

(** C2, as the code has it: for every payload of n bytes with
    n <= 4294967259 and every sample rate from 1 to 2147483647, the
    encoder returns exactly 44 + n bytes: the RIFF marker at bytes 0-3,
    the total size 36 + n at bytes 4-7, the WAVE marker at bytes 8-11, the
    24-byte format sub-block (marker, size 16, format tag 1, one channel,
    the sample rate, byte rate = rate x 1 x 2, block align 2, 16 bits per
    sample), the data marker and the data size n, then the payload. *)
Theorem C2_container_layout (pcm : bytes) (sample_rate : Z) :
  0 < sample_rate <= MAX_RATE ->
  Z.of_nat (length pcm) <= MAX_PAYLOAD ->
  exists wav,
    pcm_to_wav pcm sample_rate DEFAULT_CHANNELS DEFAULT_SAMPLE_WIDTH = Ok wav
    /\ Z.of_nat (length wav) = 44 + Z.of_nat (length pcm)
    /\ slice 0 4 wav = list_byte_of_string "RIFF"
    /\ Struct.unpack (slice 4 8 wav) = 36 + Z.of_nat (length pcm)
    /\ slice 8 12 wav = list_byte_of_string "WAVE"
    /\ slice 12 16 wav = list_byte_of_string "fmt "
    /\ Struct.unpack (slice 16 20 wav) = 16
    /\ Struct.unpack (slice 20 22 wav) = 1
    /\ Struct.unpack (slice 22 24 wav) = 1
    /\ Struct.unpack (slice 24 28 wav) = sample_rate
    /\ Struct.unpack (slice 28 32 wav) = sample_rate * 1 * 2
    /\ Struct.unpack (slice 32 34 wav) = 2
    /\ Struct.unpack (slice 34 36 wav) = 16
    /\ slice 36 40 wav = list_byte_of_string "data"
    /\ Struct.unpack (slice 40 44 wav) = Z.of_nat (length pcm)
    /\ skipn 44 wav = pcm.
Proof.
  intros Hsr Hn. pose proof Hsr as Hsr'. pose proof Hn as Hn'.
  unfold MAX_RATE in Hsr'. unfold MAX_PAYLOAD in Hn'.
  set (n := Z.of_nat (length pcm)) in *.
  exists (wav_header sample_rate 1 2 n ++ pcm).
  split; [apply pcm_to_wav_ok; assumption|].
  split.
  { rewrite length_app, wav_header_length. subst n. lia. }
  repeat (split; [reflexivity|]); repeat split.
  - change (slice 4 8 (wav_header sample_rate 1 2 n ++ pcm))
      with (le_split 4 (36 + n)).
    apply unpack_le_split_4. unfold Struct.L_MAX. lia.
  - change (slice 24 28 (wav_header sample_rate 1 2 n ++ pcm))
      with (le_split 4 sample_rate).
    apply unpack_le_split_4. unfold Struct.L_MAX. lia.
  - change (slice 28 32 (wav_header sample_rate 1 2 n ++ pcm))
      with (le_split 4 (1 * sample_rate * 2)).
    rewrite unpack_le_split_4 by (unfold Struct.L_MAX; lia). lia.
  - change (slice 40 44 (wav_header sample_rate 1 2 n ++ pcm))
      with (le_split 4 n).
    apply unpack_le_split_4. unfold Struct.L_MAX. lia.
Qed.

(** The payload of scenario A: an 8-byte payload at 24000 Hz gives a
    52-byte container with total-size field 44 and data-size field 8. *)
Lemma C2_container_layout_witness :
  exists wav,
    pcm_to_wav (list_byte_of_string "ABCDEFGH") 24000 DEFAULT_CHANNELS
               DEFAULT_SAMPLE_WIDTH = Ok wav
    /\ length wav = 52%nat
    /\ Struct.unpack (slice 4 8 wav) = 44
    /\ Struct.unpack (slice 40 44 wav) = 8.
Proof.
  destruct (C2_container_layout (list_byte_of_string "ABCDEFGH") 24000)
    as (wav & Hw & Hlen & _ & Htot & _ & _ & _ & _ & _ & _ & _ & _ & _ & _
        & Hdat & _).
  - unfold MAX_RATE. lia.
  - unfold MAX_PAYLOAD. cbn. lia.
  - exists wav. repeat split; try assumption.
    apply Nat2Z.inj. rewrite Hlen. reflexivity.
Defined.

(** C2 as stated fails at the positive sample rate 2^31: the byte rate
    2^32 does not fit its field, packing the header raises [struct.error]
    and no container is returned. *)
Lemma C2_counterexample_rate_2_31 :
  0 < 2147483648
  /\ pcm_to_wav [] 2147483648 DEFAULT_CHANNELS DEFAULT_SAMPLE_WIDTH
     = Raise (StructError "'L' format requires 0 <= number <= 4294967295").
Proof. split; [lia | reflexivity]. Qed.

(** C6, as the code has it: for every payload of at most 4294967259
    bytes, odd lengths included, and either sample rate [predict] can
    pass, the data region of the container the encoder returns is the
    payload, byte for byte: the bytes after the 44-byte header are the
    payload and nothing else, and the data-size field counts them all. *)
Theorem C6_round_trip (pcm : bytes) (sr : Predictor.sample_rate) :
  Z.of_nat (length pcm) <= MAX_PAYLOAD ->
  exists wav,
    pcm_to_wav pcm (Predictor.hz sr) DEFAULT_CHANNELS DEFAULT_SAMPLE_WIDTH
    = Ok wav
    /\ data_region wav = pcm
    /\ skipn 44 wav = pcm
    /\ length wav = (44 + length pcm)%nat.
Proof.
  intros Hn.
  exists (wav_header (Predictor.hz sr) 1 2 (Z.of_nat (length pcm)) ++ pcm).
  split; [|split; [|split]].
  - apply pcm_to_wav_ok; [|assumption].
    unfold MAX_RATE. destruct sr; cbn; lia.
  - now apply data_region_header.
  - apply skipn_header.
  - now rewrite length_app, wav_header_length.
Qed.

(** A payload of three bytes, an odd length, comes back as it went in. *)
Lemma C6_round_trip_witness :
  exists wav,
    pcm_to_wav (list_byte_of_string "ABC") 24000 DEFAULT_CHANNELS
               DEFAULT_SAMPLE_WIDTH = Ok wav
    /\ data_region wav = list_byte_of_string "ABC"
    /\ length wav = 47%nat.
Proof.
  destruct (C6_round_trip (list_byte_of_string "ABC") Predictor.Hz24000)
    as (wav & Hw & Hd & _ & Hl).
  - unfold MAX_PAYLOAD. cbn. lia.
  - exists wav. repeat split; assumption.
Defined.

(** C6 as stated fails at a payload of 4294967260 bytes: the total size
    2^32 does not fit its field, the encoder raises [struct.error], and
    there is no container to extract the payload from. *)
Lemma C6_counterexample_oversized :
  Z.of_nat (length oversized_payload) = 4294967260
  /\ ~ exists wav,
        pcm_to_wav oversized_payload DEFAULT_SAMPLE_RATE DEFAULT_CHANNELS
                   DEFAULT_SAMPLE_WIDTH = Ok wav.
Proof.
  assert (Hlen : Z.of_nat (length oversized_payload) = 4294967260).
  { unfold oversized_payload. rewrite repeat_length, Z2Nat.id.
    - reflexivity.
    - unfold MAX_PAYLOAD. lia. }
  split; [exact Hlen|].
  intros [wav Hwav].
  destruct (pcm_to_wav_too_long oversized_payload DEFAULT_SAMPLE_RATE)
    as [m Hm].
  - unfold DEFAULT_SAMPLE_RATE. lia.
  - rewrite Hlen. unfold MAX_PAYLOAD. lia.
  - unfold DEFAULT_CHANNELS, DEFAULT_SAMPLE_WIDTH in Hwav.
    rewrite Hm in Hwav. discriminate Hwav.
Qed.

(** ** The event loop *)

Section Aggregator.
Import Predictor.

(** A truthy value under a key is a binding of the key. *)
Lemma truthy_get_lookup d k :
  truthy (get d k) = true -> lookup d k = Some (get d k).
Proof.
  unfold get. destruct (lookup d k); [reflexivity | discriminate].
Qed.

(** One pass through the loop body: it goes on or stops as the event has
    the end flag or not, and it has added the event's frame. *)
Lemma loop_body_spec acc ev :
  match loop_body acc ev with
  | Continue acc' => carries_end ev = false /\ acc' = acc ++ frame_of ev
  | Break acc' => carries_end ev = true /\ acc' = acc ++ frame_of ev
  | Escape _ => True
  end.
Proof.
  unfold frame_of.
  destruct ev as [| |data]; cbn [loop_body decoded carries_end];
    try (now rewrite app_nil_r).
  destruct data; try exact I.
  cbn [audio_bearing].
  destruct (eq_str (get d "Type") "audio" && truthy (get d "Audio")) eqn:Ha.
  - apply andb_true_iff in Ha. destruct Ha as [_ Ha].
    rewrite (truthy_get_lookup _ _ Ha).
    destruct (b64decode (get d "Audio")); [|exact I].
    destruct (truthy (get d "IsEnd")); split; reflexivity.
  - destruct (truthy (get d "IsEnd")); split;
      try reflexivity; now rewrite app_nil_r.
Qed.

(** An event with the end flag ends the loop: by [break], or by the
    exception its audio raises. *)
Lemma loop_body_end acc ev :
  carries_end ev = true ->
  match loop_body acc ev with
  | Continue _ => False
  | _ => True
  end.
Proof.
  intros He. pose proof (loop_body_spec acc ev) as H.
  destruct (loop_body acc ev); try exact I.
  destruct H as [H _]. congruence.
Qed.

(** What follows an event with the end flag is never pulled and changes
    nothing. *)
Lemma consume_end pre ev post acc :
  carries_end ev = true ->
  chunks (consume (pre ++ Yield ev :: post) acc)
  = chunks (consume (pre ++ [Yield ev]) acc)
  /\ raised (consume (pre ++ Yield ev :: post) acc)
     = raised (consume (pre ++ [Yield ev]) acc)
  /\ unread (consume (pre ++ Yield ev :: post) acc)
     = unread (consume (pre ++ [Yield ev]) acc) ++ post.
Proof.
  intros He. revert acc.
  induction pre as [|it pre IH]; intros acc.
  - cbn [app consume]. pose proof (loop_body_end acc ev He) as H.
    destruct (loop_body acc ev); [contradiction | |]; cbn; auto.
  - cbn [app consume]. destruct it as [e|msg].
    + destruct (loop_body acc e); cbn [chunks raised unread].
      * apply IH.
      * repeat split. now rewrite <- app_assoc.
      * repeat split. now rewrite <- app_assoc.
    + cbn [chunks raised unread]. repeat split. now rewrite <- app_assoc.
Qed.

(** When no exception leaves the loop, the chunks are the frames of the
    response up to its first event with the end flag, in order. *)
Lemma consume_chunks resp acc :
  raised (consume resp acc) = None ->
  chunks (consume resp acc) = acc ++ frames (until_end resp).
Proof.
  revert acc. induction resp as [|it resp IH]; intros acc Hr.
  - cbn. now rewrite app_nil_r.
  - destruct it as [ev|msg]; [|discriminate Hr].
    cbn [consume until_end] in *.
    pose proof (loop_body_spec acc ev) as Hs.
    destruct (loop_body acc ev) as [acc'|acc'|e];
      [| |discriminate Hr]; destruct Hs as [He ->]; rewrite He.
    + rewrite (IH _ Hr). cbn [frames]. unfold frame_of.
      destruct (decoded ev); now rewrite <- app_assoc.
    + cbn [chunks frames]. unfold frame_of.
      destruct (decoded ev); reflexivity.
Qed.

(** A skipped event changes neither the chunks nor the way the loop is
    left. *)
Lemma consume_skipped r1 ev r2 acc :
  skipped ev = true ->
  chunks (consume (r1 ++ Yield ev :: r2) acc)
  = chunks (consume (r1 ++ r2) acc)
  /\ raised (consume (r1 ++ Yield ev :: r2) acc)
     = raised (consume (r1 ++ r2) acc).
Proof.
  intros Hs. revert acc. induction r1 as [|it r1 IH]; intros acc.
  - cbn [app consume]. destruct ev; try discriminate Hs; cbn; auto.
  - cbn [app consume]. destruct it as [e|msg]; [|cbn; auto].
    destruct (loop_body acc e); cbn; auto.
Qed.

(** An item that passes does not make the loop body raise. *)
Lemma passes_no_escape acc ev :
  passes (Yield ev) = true ->
  match loop_body acc ev with
  | Escape _ => False
  | _ => True
  end.
Proof.
  destruct ev as [| |data]; try (intros _; exact I).
  destruct data; try discriminate.
  cbn [passes loop_body decoded audio_bearing].
  destruct (eq_str (get d "Type") "audio" && truthy (get d "Audio")).
  - destruct (lookup d "Audio"); [|discriminate].
    destruct (b64decode j); [|discriminate].
    intros _. now destruct (truthy (get d "IsEnd")).
  - intros _. now destruct (truthy (get d "IsEnd")).
Qed.

(** When every item up to the first end flag passes, no exception leaves
    the loop: a payload is built as soon as there is a frame. *)
Lemma consume_passes resp acc :
  forallb passes (until_end resp) = true ->
  raised (consume resp acc) = None.
Proof.
  revert acc. induction resp as [|it resp IH]; intros acc Hp;
    [reflexivity|].
  destruct it as [ev|msg]; [|discriminate Hp].
  cbn [consume until_end] in *.
  pose proof (loop_body_spec acc ev) as Hs.
  assert (Hev : passes (Yield ev) = true).
  { destruct (carries_end ev); cbn [forallb] in Hp;
      apply andb_true_iff in Hp; tauto. }
  pose proof (passes_no_escape acc ev Hev) as Hne.
  destruct (loop_body acc ev) as [acc'|acc'|e]; [| reflexivity | contradiction].
  destruct Hs as [He _]. rewrite He in Hp. cbn [forallb] in Hp.
  apply andb_true_iff in Hp. now apply IH.
Qed.

Lemma payload_passes resp :
  forallb passes (until_end resp) = true ->
  frames (until_end resp) <> [] ->
  payload resp = Some (concat (frames (until_end resp))).
Proof.
  intros Hp Hf. unfold payload.
  pose proof (consume_passes resp [] Hp) as Hr.
  rewrite Hr, (consume_chunks resp [] Hr). cbn [app].
  destruct (frames (until_end resp)); [contradiction | reflexivity].
Qed.

End Aggregator.

(** ** Order of the aggregated payload (claim C1) *)

(** C1, as the code has it: whenever a payload is handed to the container
    encoder, it is the concatenation of the decoded contents of the
    audio-bearing events up to and including the first event that carries
    the end flag, in the order of the response, each once; and putting a
    skipped event (one without data, or whose text is not JSON) anywhere
    among the events leaves that payload as it is. *)
Theorem C1_payload_order (resp : list Predictor.item) (pcm : bytes) :
  Predictor.payload resp = Some pcm ->
  pcm = concat (frames (until_end resp))
  /\ forall r1 r2 ev,
       resp = r1 ++ r2 -> skipped ev = true ->
       Predictor.payload (r1 ++ Predictor.Yield ev :: r2) = Some pcm.
Proof.
  unfold Predictor.payload. intros Hp. split.
  - destruct (Predictor.raised (Predictor.consume resp [])) eqn:Hr;
      [discriminate Hp|].
    rewrite (consume_chunks resp [] Hr) in Hp. cbn [app] in Hp.
    destruct (frames (until_end resp)); [discriminate Hp|].
    now injection Hp as <-.
  - intros r1 r2 ev -> Hs.
    destruct (consume_skipped r1 ev r2 [] Hs) as [-> ->]. exact Hp.
Qed.

(** Scenario A: the payload is ABCDEFGH, with or without one more
    skipped event in front of the end. *)
Lemma C1_payload_order_witness :
  Predictor.payload scenario_A = Some (list_byte_of_string "ABCDEFGH")
  /\ Predictor.payload
       (firstn 3 scenario_A ++ Predictor.Yield Predictor.NoData
        :: skipn 3 scenario_A)
     = Some (list_byte_of_string "ABCDEFGH").
Proof.
  destruct (C1_payload_order scenario_A (list_byte_of_string "ABCDEFGH")
              eq_refl) as [_ H].
  split; [reflexivity|].
  apply (H (firstn 3 scenario_A) (skipn 3 scenario_A) Predictor.NoData);
    reflexivity.
Defined.

(** C1 as stated fails on a response with a frame after the end event:
    the payload is ABCD, the decoded contents of its audio-bearing events
    are ABCD and EFGH. *)
Lemma C1_counterexample_frame_after_end :
  Predictor.payload frame_after_end = Some (list_byte_of_string "ABCD")
  /\ concat (frames frame_after_end) = list_byte_of_string "ABCDEFGH"
  /\ ~ (forall resp pcm, Predictor.payload resp = Some pcm ->
                         pcm = concat (frames resp)).
Proof.
  split; [reflexivity|]. split; [reflexivity|].
  intros H. specialize (H frame_after_end _ eq_refl). discriminate H.
Qed.

(** ** The end of consumption (claims C7 and C10) *)

(** C7: once an event with the end flag is reached, nothing after it is
    pulled from the response, and nothing after it changes the chunks,
    the payload or the outcome of [predict]. *)
Theorem C7_stop_after_end (pre post : list Predictor.item)
    (ev : Predictor.event) :
  carries_end ev = true ->
  Predictor.unread
    (Predictor.consume (pre ++ Predictor.Yield ev :: post) [])
  = Predictor.unread (Predictor.consume (pre ++ [Predictor.Yield ev]) [])
    ++ post
  /\ Predictor.chunks
       (Predictor.consume (pre ++ Predictor.Yield ev :: post) [])
     = Predictor.chunks (Predictor.consume (pre ++ [Predictor.Yield ev]) [])
  /\ Predictor.payload (pre ++ Predictor.Yield ev :: post)
     = Predictor.payload (pre ++ [Predictor.Yield ev])
  /\ forall sr fs,
       Predictor.predict sr (pre ++ Predictor.Yield ev :: post) fs
       = Predictor.predict sr (pre ++ [Predictor.Yield ev]) fs.
Proof.
  intros He. destruct (consume_end pre ev post [] He) as (Hc & Hr & Hu).
  split; [exact Hu|]. split; [exact Hc|]. split.
  - unfold Predictor.payload. now rewrite Hc, Hr.
  - intros sr fs. unfold Predictor.predict. now rewrite Hc, Hr.
Qed.

(** A frame after the end event of scenario A stays unread. *)
Lemma C7_stop_after_end_witness :
  Predictor.unread
    (Predictor.consume (scenario_A ++ [audio_event "SUpLTA=="]) [])
  = [audio_event "SUpLTA=="]
  /\ Predictor.payload (scenario_A ++ [audio_event "SUpLTA=="])
     = Some (list_byte_of_string "ABCDEFGH").
Proof.
  destruct (C7_stop_after_end (firstn 3 scenario_A)
              [audio_event "SUpLTA=="]
              (Predictor.Json (JDict [("Type"%string, JStr "end");
                                      ("IsEnd"%string, JBool true)]))
              eq_refl) as (Hu & _ & Hp & _).
  split; [exact Hu | exact Hp].
Defined.



(** ** What leaves the loop as an exception (claims C3 and C5) *)

Section Escalation.
Import Predictor.

(** An audio-bearing event whose audio does not decode: the exception
    leaves the loop, the chunks stay as they were, the rest is unread. *)
Lemma decode_failure_escapes d e acc rest :
  eq_str (get d "Type") "audio" = true ->
  truthy (get d "Audio") = true ->
  b64decode (get d "Audio") = Raise e ->
  consume (Yield (Json (JDict d)) :: rest) acc = mk_exit acc rest (Some e).
Proof.
  intros Ht Ha Hd. cbn [consume loop_body].
  rewrite Ht, Ha, (truthy_get_lookup _ _ Ha), Hd. reflexivity.
Qed.

(** The exception is then reported by the handler, whatever came
    before or would have come after. *)
Lemma predict_raised sr resp fs e :
  raised (consume resp []) = Some e ->
  predict sr resp fs
  = (RuntimeError (fst (handler (exn_str e))) (snd (handler (exn_str e))),
     fs).
Proof.
  intros Hr. unfold predict. rewrite Hr.
  destruct (handler (exn_str e)). reflexivity.
Qed.

Lemma frames_cons ev rest :
  frames (Yield ev :: rest) = frame_of ev ++ frames rest.
Proof. cbn [frames]. unfold frame_of. destruct (decoded ev); reflexivity. Qed.

(** The chunks the loop leaves are the first of the frames of the
    response. *)
Lemma consume_chunks_frames resp acc :
  exists l r, frames resp = l ++ r /\ chunks (consume resp acc) = acc ++ l.
Proof.
  revert acc. induction resp as [|it resp IH]; intros acc.
  - exists [], []. cbn. now rewrite app_nil_r.
  - destruct it as [ev|msg].
    + cbn [consume]. pose proof (loop_body_spec acc ev) as Hs.
      destruct (loop_body acc ev) as [acc'|acc'|e].
      * destruct Hs as [_ ->]. destruct (IH (acc ++ frame_of ev))
          as (l & r & Hf & Hc).
        exists (frame_of ev ++ l), r. rewrite frames_cons, Hf, Hc.
        now rewrite !app_assoc.
      * destruct Hs as [_ ->]. exists (frame_of ev), (frames resp).
        now rewrite frames_cons.
      * exists [], (frames (Yield ev :: resp)). cbn [chunks app].
        now rewrite app_nil_r.
    + exists [], (frames resp). cbn. now rewrite app_nil_r.
Qed.

End Escalation.

(** C3, at a response the loop can receive: scenario A with a frame whose
    base64 text lacks its padding instead of the line that is not JSON.
    The decoding error is not one the inner handler catches: it leaves
    the loop, the two events after it are never read, and [predict] ends
    with the error for an unknown upstream fault; the same frames around a
    line that is not JSON give the payload ABCDEFGH. *)
Theorem C3_decode_failure_fails_stream :
  Predictor.predict Predictor.Hz24000 bad_padding_response []
  = (Predictor.RuntimeError Predictor.UnknownUpstreamError
       "TTS API error: Incorrect padding", [])
  /\ Predictor.unread (Predictor.consume bad_padding_response [])
     = [audio_event "RUZHSA=="; end_event]
  /\ Predictor.payload bad_padding_response = None
  /\ Predictor.payload scenario_A = Some (list_byte_of_string "ABCDEFGH").
Proof. repeat split. Qed.

(** What holds of every response with no audio frame in it: the chunks
    are empty when the loop is left, [predict] ends in an error and
    leaves the files as they were, and when the loop is left without an
    exception, so that line 204 is reached, the error is the one for
    empty audio. *)
Lemma no_frames_no_container (sr : Predictor.sample_rate)
    (resp : list Predictor.item) (fs : Predictor.files) :
  frames resp = [] ->
  Predictor.chunks (Predictor.consume resp []) = []
  /\ (exists kind msg,
        Predictor.predict sr resp fs = (Predictor.RuntimeError kind msg, fs))
  /\ (Predictor.raised (Predictor.consume resp []) = None ->
      Predictor.predict sr resp fs
      = (Predictor.RuntimeError Predictor.EmptyAudio
           Predictor.EMPTY_MESSAGE, fs)).
Proof.
  intros Hf.
  assert (Hc : Predictor.chunks (Predictor.consume resp []) = []).
  { destruct (consume_chunks_frames resp []) as (l & r & Hlr & Hc).
    rewrite Hf in Hlr. symmetry in Hlr.
    apply app_eq_nil in Hlr. destruct Hlr as [-> _]. exact Hc. }
  split; [exact Hc|]. split.
  - destruct (Predictor.raised (Predictor.consume resp [])) eqn:Hr.
    + rewrite (predict_raised sr resp fs e Hr). eauto.
    + unfold Predictor.predict. rewrite Hr, Hc. cbn. eauto.
  - intros Hr. unfold Predictor.predict. rewrite Hr, Hc. reflexivity.
Qed.

(** C5, at the failing input: a line that is not JSON, an event whose
    text is the JSON value null, and the end event. The response has no
    audio frame in it and no payload is built, yet what [predict] reports
    is not the empty-audio error: [data.get] raises [AttributeError] on
    the null, line 184 does not catch it, and the outer handler raises
    "TTS API error: 'NoneType' object has no attribute 'get'". Without
    the null event the same response gives the empty-audio error. *)
Theorem C5_null_event_hides_empty_audio :
  frames null_payload_response = []
  /\ Predictor.payload null_payload_response = None
  /\ Predictor.raised (Predictor.consume null_payload_response [])
     = Some (AttributeError "'NoneType' object has no attribute 'get'")
  /\ Predictor.unread (Predictor.consume null_payload_response [])
     = [end_event]
  /\ Predictor.predict Predictor.Hz24000 null_payload_response []
     = (Predictor.RuntimeError Predictor.UnknownUpstreamError
          "TTS API error: 'NoneType' object has no attribute 'get'", [])
  /\ Predictor.predict Predictor.Hz24000
       [Predictor.Yield Predictor.BadJson; end_event] []
     = (Predictor.RuntimeError Predictor.EmptyAudio
          Predictor.EMPTY_MESSAGE, []).
Proof. repeat split. Qed.

(** ** The exception handler (claims C9 and C4) *)

(** A text with none of the three markers comes back whole, behind a
    fixed prefix. *)
Lemma handler_unknown error_msg :
  Predictor.contains "AuthFailure" error_msg = false ->
  Predictor.contains "InvalidParameter" error_msg = false ->
  Predictor.contains "RequestLimitExceeded" error_msg = false ->
  Predictor.handler error_msg
  = (Predictor.UnknownUpstreamError,
     ("TTS API error: " ++ error_msg)%string).
Proof.
  intros H1 H2 H3. unfold Predictor.handler. now rewrite H1, H2, H3.
Qed.

(** C9: for every fault whose text has the authentication marker
    anywhere, the handler raises the authentication error with one fixed
    message: the same for every such text, so nothing of the text is in
    it; and so does [predict] for every response whose consumption raises
    such a fault. *)
Theorem C9_auth_failure_fixed_message (error_msg : string) :
  Predictor.contains "AuthFailure" error_msg = true ->
  Predictor.handler error_msg
  = (Predictor.AuthFailure, Predictor.AUTH_MESSAGE)
  /\ (forall other,
        Predictor.contains "AuthFailure" other = true ->
        Predictor.handler other = Predictor.handler error_msg)
  /\ (forall sr resp fs e,
        Predictor.raised (Predictor.consume resp []) = Some e ->
        exn_str e = error_msg ->
        Predictor.predict sr resp fs
        = (Predictor.RuntimeError Predictor.AuthFailure
             Predictor.AUTH_MESSAGE, fs)).
Proof.
  intros Hm.
  assert (Hh : forall m, Predictor.contains "AuthFailure" m = true ->
                         Predictor.handler m
                         = (Predictor.AuthFailure, Predictor.AUTH_MESSAGE)).
  { intros m H. unfold Predictor.handler. now rewrite H. }
  split; [now apply Hh|]. split.
  - intros other Ho. now rewrite (Hh _ Ho), (Hh _ Hm).
  - intros sr resp fs e Hr He.
    rewrite (predict_raised sr resp fs e Hr), He, (Hh _ Hm). reflexivity.
Qed.

(** A fault that quotes a SecretId next to the marker, raised after one
    frame: the message is the fixed one. *)
Lemma C9_auth_failure_fixed_message_witness :
  Predictor.predict Predictor.Hz24000
    [audio_event "QUJDRA==";
     Predictor.Fault
       "code:AuthFailure.SecretIdNotFound message:AKIDz8krbsJ5 not found"]
    []
  = (Predictor.RuntimeError Predictor.AuthFailure Predictor.AUTH_MESSAGE,
     []).
Proof.
  exact (proj2 (proj2 (C9_auth_failure_fixed_message
    "code:AuthFailure.SecretIdNotFound message:AKIDz8krbsJ5 not found"
    eq_refl))
    Predictor.Hz24000
    [audio_event "QUJDRA==";
     Predictor.Fault
       "code:AuthFailure.SecretIdNotFound message:AKIDz8krbsJ5 not found"]
    []
    (Upstream
       "code:AuthFailure.SecretIdNotFound message:AKIDz8krbsJ5 not found")
    eq_refl eq_refl).
Defined.

(** C4, at a fault the handler can receive: the text of a client
    exception that quotes the caller's SecretId and has none of the three
    markers. The message raised is the text itself behind a fixed prefix,
    SecretId included; nothing is taken out of it. *)
Theorem C4_unknown_fault_message_not_sanitized :
  Predictor.handler leaking_fault
  = (Predictor.UnknownUpstreamError,
     ("TTS API error: " ++ leaking_fault)%string)
  /\ Predictor.contains LEAKED_ID leaking_fault = true
  /\ Predictor.contains LEAKED_ID (snd (Predictor.handler leaking_fault))
     = true
  /\ Predictor.predict Predictor.Hz24000 [Predictor.Fault leaking_fault] []
     = (Predictor.RuntimeError Predictor.UnknownUpstreamError
          ("TTS API error: " ++ leaking_fault)%string, []).
Proof. repeat split. Qed.

(** ** A response that runs out without an end event (claim C8) *)

Section Exhaustion.
Import Predictor.

Lemma until_end_no_end resp : no_end resp = true -> until_end resp = resp.
Proof.
  induction resp as [|it resp IH]; [reflexivity|].
  cbn [no_end forallb until_end]. intros H.
  apply andb_true_iff in H. destruct H as [Hit Hrest].
  destruct it as [ev|msg].
  - apply negb_true_iff in Hit. rewrite Hit. f_equal. now apply IH.
  - f_equal. now apply IH.
Qed.

(** Without an end flag and without an exception, the loop ends when the
    response does. *)
Lemma consume_exhausted resp acc :
  no_end resp = true ->
  raised (consume resp acc) = None ->
  unread (consume resp acc) = [].
Proof.
  revert acc. induction resp as [|it resp IH]; intros acc Hn Hr;
    [reflexivity|].
  cbn [no_end forallb] in Hn. apply andb_true_iff in Hn.
  destruct Hn as [Hit Hrest].
  destruct it as [ev|msg]; [|discriminate Hr].
  cbn [consume] in *. pose proof (loop_body_spec acc ev) as Hs.
  destruct (loop_body acc ev) as [acc'|acc'|e].
  - now apply IH.
  - destruct Hs as [He _]. rewrite He in Hit. discriminate Hit.
  - discriminate Hr.
Qed.

Lemma read_write_file fs path data :
  read_file (write_file fs path data) path = Some data.
Proof. cbn. now rewrite String.eqb_refl. Qed.

(** The loop body on a valid audio frame without an end flag. *)
Lemma loop_body_audio_event a chunk acc :
  a <> ""%string ->
  Base64.b64decode_str a = Ok chunk ->
  loop_body acc (Json (JDict [("Type"%string, JStr "audio");
                              ("Audio"%string, JStr a)]))
  = Continue (acc ++ [chunk]).
Proof.
  intros Ha Hd. cbn [loop_body].
  change (get [("Type"%string, JStr "audio"); ("Audio"%string, JStr a)]
              "Type") with (JStr "audio").
  change (get [("Type"%string, JStr "audio"); ("Audio"%string, JStr a)]
              "Audio") with (JStr a).
  change (get [("Type"%string, JStr "audio"); ("Audio"%string, JStr a)]
              "IsEnd") with JNone.
  change (lookup [("Type"%string, JStr "audio"); ("Audio"%string, JStr a)]
                 "Audio") with (Some (JStr a)).
  cbn [eq_str truthy b64decode andb].
  change (String.eqb "audio" "audio") with true. cbv iota.
  destruct (String.eqb_spec a ""); [contradiction|].
  cbn [negb]. now rewrite Hd.
Qed.

(** Two valid audio frames and nothing else: both are collected. *)
Lemma consume_two_frames a1 a2 b1 b2 :
  a1 <> ""%string -> a2 <> ""%string ->
  Base64.b64decode_str a1 = Ok b1 ->
  Base64.b64decode_str a2 = Ok b2 ->
  consume [audio_event a1; audio_event a2] [] = mk_exit [b1; b2] [] None.
Proof.
  intros H1 H2 D1 D2. unfold audio_event. cbn [consume].
  rewrite (loop_body_audio_event a1 b1 [] H1 D1). cbn [app].
  rewrite (loop_body_audio_event a2 b2 [b1] H2 D2). reflexivity.
Qed.

End Exhaustion.

(** C8, as the code has it: for every response that runs out with no end
    flag and with no exception leaving the loop, nothing is left unread,
    the chunks are all the audio frames of the response, and [predict]
    finalizes with them; when there is a frame and the frames' bytes
    together are at most 4294967259, [predict] ends with the container
    written, its data region the frames' bytes in their order; so it is
    for a response whose audio frames are two, whatever else it holds. *)
Theorem C8_implicit_completion (sr : Predictor.sample_rate)
    (resp : list Predictor.item) (fs : Predictor.files) :
  no_end resp = true ->
  Predictor.raised (Predictor.consume resp []) = None ->
  (Predictor.unread (Predictor.consume resp []) = []
   /\ Predictor.chunks (Predictor.consume resp []) = frames resp
   /\ Predictor.predict sr resp fs = Predictor.finalize sr (frames resp) fs)
  /\ (frames resp <> [] ->
      Z.of_nat (length (concat (frames resp))) <= MAX_PAYLOAD ->
      exists wav,
        Predictor.predict sr resp fs
        = (Predictor.Returned Predictor.OUTPUT_PATH,
           Predictor.write_file fs Predictor.OUTPUT_PATH wav)
        /\ data_region wav = concat (frames resp)
        /\ Predictor.read_file (snd (Predictor.predict sr resp fs))
                               Predictor.OUTPUT_PATH = Some wav)
  /\ forall b1 b2,
       frames resp = [b1; b2] ->
       Z.of_nat (length (b1 ++ b2)) <= MAX_PAYLOAD ->
       exists wav,
         Predictor.predict sr resp fs
         = (Predictor.Returned Predictor.OUTPUT_PATH,
            Predictor.write_file fs Predictor.OUTPUT_PATH wav)
         /\ data_region wav = b1 ++ b2
         /\ Predictor.read_file (snd (Predictor.predict sr resp fs))
                                Predictor.OUTPUT_PATH = Some wav.
Proof.
  intros Hn Hr.
  assert (Hc : Predictor.chunks (Predictor.consume resp []) = frames resp).
  { rewrite (consume_chunks resp [] Hr), (until_end_no_end resp Hn).
    reflexivity. }
  assert (Hfin : Predictor.predict sr resp fs
                 = Predictor.finalize sr (frames resp) fs).
  { unfold Predictor.predict. now rewrite Hr, Hc. }
  assert (Hgen : forall fr,
             frames resp = fr -> fr <> [] ->
             Z.of_nat (length (concat fr)) <= MAX_PAYLOAD ->
             exists wav,
               Predictor.predict sr resp fs
               = (Predictor.Returned Predictor.OUTPUT_PATH,
                  Predictor.write_file fs Predictor.OUTPUT_PATH wav)
               /\ data_region wav = concat fr
               /\ Predictor.read_file (snd (Predictor.predict sr resp fs))
                                      Predictor.OUTPUT_PATH = Some wav).
  { intros fr Hf Hne Hlen.
    exists (wav_header (Predictor.hz sr) 1 2
              (Z.of_nat (length (concat fr))) ++ concat fr).
    assert (Hp : Predictor.predict sr resp fs
                 = (Predictor.Returned Predictor.OUTPUT_PATH,
                    Predictor.write_file fs Predictor.OUTPUT_PATH
                      (wav_header (Predictor.hz sr) 1 2
                         (Z.of_nat (length (concat fr))) ++ concat fr))).
    { rewrite Hfin, Hf. destruct fr as [|c cs]; [congruence|].
      unfold Predictor.finalize.
      unfold DEFAULT_CHANNELS, DEFAULT_SAMPLE_WIDTH.
      rewrite pcm_to_wav_ok; [reflexivity | | exact Hlen].
      unfold MAX_RATE. destruct sr; cbn; lia. }
    split; [exact Hp|]. split.
    - now apply data_region_header.
    - rewrite Hp. cbn [snd]. apply read_write_file. }
  split; [|split].
  - split; [now apply consume_exhausted|]. split; [exact Hc|exact Hfin].
  - intros Hne Hlen. now apply Hgen.
  - intros b1 b2 Hf Hlen.
    destruct (Hgen [b1; b2] Hf) as (wav & Hp & Hd & Hread).
    + discriminate.
    + cbn [concat]. now rewrite app_nil_r.
    + exists wav. split; [exact Hp|]. split; [|exact Hread].
      rewrite Hd. cbn [concat]. now rewrite app_nil_r.
Qed.

(** Two frames, ABCD and EFGH, a line that is not JSON between them
    and no end event: the file holds the 52-byte container of
    ABCDEFGH. *)
Lemma C8_implicit_completion_witness :
  exists wav,
    Predictor.predict Predictor.Hz24000
      [audio_event "QUJDRA=="; Predictor.Yield Predictor.BadJson;
       audio_event "RUZHSA=="] []
    = (Predictor.Returned Predictor.OUTPUT_PATH,
       [(Predictor.OUTPUT_PATH, wav)])
    /\ data_region wav = list_byte_of_string "ABCDEFGH".
Proof.
  destruct (proj2 (proj2 (C8_implicit_completion Predictor.Hz24000
                     [audio_event "QUJDRA=="; Predictor.Yield Predictor.BadJson;
                      audio_event "RUZHSA=="] []
                     eq_refl eq_refl))
              (list_byte_of_string "ABCD") (list_byte_of_string "EFGH")
              eq_refl ltac:(unfold MAX_PAYLOAD; cbn; lia))
    as (wav & Hp & Hd & _).
  exists wav. split; [exact Hp | exact Hd].
Defined.

Section OversizedFrames.
Import Predictor.

(** Four letters A decode to three zero bytes. *)
Lemma a2b_loop_quad rest out :
  Base64.a2b_loop (list_byte_of_string "AAAA" ++ rest) 0 0 0 out
  = Base64.a2b_loop rest 0 0 0
      (((out ++ [Byte.x00]) ++ [Byte.x00]) ++ [Byte.x00]).
Proof. reflexivity. Qed.

Lemma a2b_loop_zero_quads k out :
  Base64.a2b_loop (concat (repeat (list_byte_of_string "AAAA") k)) 0 0 0 out
  = (0, out ++ repeat Byte.x00 (3 * k)).
Proof.
  revert out. induction k as [|k IH]; intros out.
  - cbn. now rewrite app_nil_r.
  - cbn [repeat concat]. rewrite a2b_loop_quad, IH.
    replace (3 * S k)%nat with (S (S (S (3 * k)))) by lia.
    cbn [repeat]. now rewrite <- !app_assoc.
Qed.

Lemma forallb_zero_quads k :
  forallb (fun c => byte.unsigned c <? 128)
          (concat (repeat (list_byte_of_string "AAAA") k)) = true.
Proof.
  induction k as [|k IH]; [reflexivity|].
  cbn [repeat concat]. rewrite forallb_app, IH. reflexivity.
Qed.

(** [zero_quads k] is valid base64, of [3 * k] zero bytes. *)
Lemma b64decode_zero_quads k :
  Base64.b64decode_str (zero_quads k) = Ok (repeat Byte.x00 (3 * k)).
Proof.
  unfold Base64.b64decode_str, Base64.is_ascii, zero_quads.
  rewrite list_byte_of_string_of_list_byte, forallb_zero_quads.
  unfold Base64.a2b_base64. rewrite a2b_loop_zero_quads. reflexivity.
Qed.

Lemma zero_quads_nonempty k : (0 < k)%nat -> zero_quads k <> ""%string.
Proof.
  destruct k as [|k]; [lia|]. intros _. unfold zero_quads.
  cbn [repeat concat]. discriminate.
Qed.

(** Two frames of [3 * k] zero bytes that together are past what the
    container holds: the loop collects both, the encoder raises, and
    the exception leaves [predict]. *)
Lemma predict_two_oversized k sr fs :
  (0 < k)%nat ->
  MAX_PAYLOAD < Z.of_nat (2 * (3 * k)) ->
  exists m,
    predict sr [audio_event (zero_quads k); audio_event (zero_quads k)] fs
    = (Propagated (StructError m), fs).
Proof.
  intros Hk Hbig.
  pose proof (zero_quads_nonempty k Hk) as Hne.
  pose proof (b64decode_zero_quads k) as Hd.
  destruct (pcm_to_wav_too_long
              (repeat Byte.x00 (3 * k) ++ repeat Byte.x00 (3 * k)) (hz sr))
    as [m Hm].
  - destruct sr; cbn; lia.
  - rewrite length_app, !repeat_length. lia.
  - exists m. unfold predict.
    rewrite (consume_two_frames _ _ _ _ Hne Hne Hd Hd).
    cbn [raised chunks finalize concat]. rewrite app_nil_r.
    unfold DEFAULT_CHANNELS, DEFAULT_SAMPLE_WIDTH. rewrite Hm. reflexivity.
Qed.

End OversizedFrames.

(** C8 as stated fails on two valid audio frames of 2147483631 zero bytes
    each and no end event: both decode, the loop collects both, and
    [predict] ends with the [struct.error] of the encoder, not with a
    container. *)
Lemma C8_counterexample_oversized_frames :
  Base64.b64decode_str oversized_frame
  = Ok (repeat Byte.x00 (3 * Z.to_nat HALF_QUADS))
  /\ Z.of_nat (3 * Z.to_nat HALF_QUADS) = 2147483631
  /\ exists m,
       Predictor.predict Predictor.Hz24000
         [audio_event oversized_frame; audio_event oversized_frame] []
       = (Predictor.Propagated (StructError m), []).
Proof.
  split; [apply b64decode_zero_quads|]. split.
  - unfold HALF_QUADS. lia.
  - apply predict_two_oversized; unfold HALF_QUADS, MAX_PAYLOAD; lia.
Qed.

(** * Further properties of the code *)

(** ** The encoder with any channel count and sample width *)

Section EncoderGeneral.

Ltac wave_fields :=
  cbn [Wave.datawritten Wave.file Wave.nchannels Wave.sampwidth
       Wave.framerate Wave.nframes Wave.nframeswritten Wave.datalength
       Wave.headerwritten Wave.form_length_pos Wave.data_length_pos].

(** The three setters on a fresh writer, when each accepts its value. *)
Lemma pcm_to_wav_body_general pcm sr ch sw :
  1 <= ch -> 1 <= sw <= 4 -> 0 < sr ->
  pcm_to_wav_body (Wave.open BytesIO.empty) pcm sr ch sw
  = Wave.writeframes
      (Wave.mk (BytesIO.mk [] 0) ch sw sr 0 0 0 0 false 0 0) pcm.
Proof.
  intros Hch Hsw Hsr. unfold pcm_to_wav_body, Wave.open, BytesIO.empty.
  unfold Wave.setnchannels at 1. wave_fields.
  change (negb (0 =? 0)) with false. cbv iota beta.
  destruct (Z.ltb_spec ch 1); [lia|].
  unfold Wave.setsampwidth at 1. wave_fields.
  change (negb (0 =? 0)) with false. cbv iota beta.
  destruct (Z.ltb_spec sw 1); [lia|]. destruct (Z.ltb_spec 4 sw); [lia|].
  cbn [orb]. unfold Wave.setframerate at 1. wave_fields.
  change (negb (0 =? 0)) with false. cbv iota beta.
  destruct (Z.leb_spec sr 0); [lia|]. reflexivity.
Qed.

(** [_write_header] on a fresh writer whose fields fit. *)
Lemma write_header_general sr ch sw dl0 init :
  1 <= ch <= Struct.H_MAX -> 1 <= sw <= 4 -> ch * sw <= Struct.H_MAX ->
  0 < sr -> ch * sr * sw <= Struct.L_MAX ->
  dl0 = init / (ch * sw) * ch * sw -> 0 <= dl0 ->
  36 + dl0 <= Struct.L_MAX ->
  Wave.write_header (Wave.mk (BytesIO.mk [] 0) ch sw sr 0 0 0 0 false 0 0)
                    init
  = inr (Wave.mk (BytesIO.mk (wav_header sr ch sw dl0) 44) ch sw sr
                 (init / (ch * sw)) 0 0 dl0 true 4 40).
Proof.
  intros Hch Hsw Hal Hsr Hbr Hdl Hdl0 Hfit.
  assert (Hsr' : sr <= Struct.L_MAX) by nia.
  unfold Wave.write_header, Wave.pack_header. wave_fields.
  change (0 =? 0) with true. cbv iota.
  rewrite <- Hdl.
  unfold Struct.L_MAX, Struct.H_MAX in *.
  rewrite !pack_L_ok by (unfold Struct.L_MAX; lia).
  unfold Wave.WAVE_FORMAT_PCM.
  rewrite !pack_H_ok by (unfold Struct.H_MAX; lia).
  cbn [bind].
  change (BytesIO.mk [] 0) with (BytesIO.mk [] (length (@nil byte))).
  rewrite !write_end. unfold BytesIO.tell. cbn [BytesIO.pos].
  assert (Hbuf : (([] ++ list_byte_of_string "RIFF") ++
      le_split 4 (36 + dl0) ++ list_byte_of_string "WAVE" ++
      list_byte_of_string "fmt " ++ le_split 4 16 ++ le_split 2 1 ++
      le_split 2 ch ++ le_split 4 sr ++ le_split 4 (ch * sr * sw) ++
      le_split 2 (ch * sw) ++ le_split 2 (sw * 8)
      ++ list_byte_of_string "data") ++
      le_split 4 dl0 = wav_header sr ch sw dl0).
  { unfold wav_header, fmt_chunk, Wave.WAVE_FORMAT_PCM.
    rewrite app_nil_l, <- !app_assoc. reflexivity. }
  rewrite Hbuf, wav_header_length. reflexivity.
Qed.

(** [_patchheader] rewrites the two size fields and nothing else. *)
Lemma patchheader_general sr ch sw dl0 n pcm p nf nfw :
  n <> dl0 -> 0 <= n -> 36 + n <= Struct.L_MAX ->
  Wave.patchheader
    (Wave.mk (BytesIO.mk (wav_header sr ch sw dl0 ++ pcm) p) ch sw sr nf nfw
             n dl0 true 4 40)
  = inr (Wave.mk (BytesIO.mk (wav_header sr ch sw n ++ pcm) p) ch sw sr nf
                 nfw n n true 4 40).
Proof.
  intros Hne Hn0 Hfit. unfold Wave.patchheader. wave_fields.
  destruct (Z.eqb_spec n dl0); [contradiction|].
  unfold Struct.L_MAX in *.
  rewrite !pack_L_ok by (unfold Struct.L_MAX; lia).
  unfold BytesIO.seek, BytesIO.tell. cbn [BytesIO.buf BytesIO.pos].
  set (mid := list_byte_of_string "WAVE" ++ fmt_chunk sr ch sw
              ++ list_byte_of_string "data").
  assert (Hsplit : forall k, wav_header sr ch sw k
            = list_byte_of_string "RIFF" ++ le_split 4 (36 + k) ++ mid
              ++ le_split 4 k).
  { intros k. unfold wav_header, mid. now rewrite <- !app_assoc. }
  assert (Hmid : length mid = 32%nat).
  { unfold mid, fmt_chunk. rewrite !length_app, !length_le_split.
    reflexivity. }
  rewrite !Hsplit, <- !app_assoc.
  rewrite (write_over (list_byte_of_string "RIFF") (le_split 4 (36 + dl0))
             _ (le_split 4 (36 + n)))
    by (now rewrite !length_le_split).
  cbn [BytesIO.buf BytesIO.pos].
  assert (Hw : BytesIO.write
                 (BytesIO.mk (list_byte_of_string "RIFF"
                              ++ le_split 4 (36 + n) ++ mid
                              ++ le_split 4 dl0 ++ pcm) 40)
                 (le_split 4 n)
               = BytesIO.mk (list_byte_of_string "RIFF"
                             ++ le_split 4 (36 + n) ++ mid
                             ++ le_split 4 n ++ pcm) 44).
  { pose proof (write_over
                  (list_byte_of_string "RIFF" ++ le_split 4 (36 + n) ++ mid)
                  (le_split 4 dl0) pcm (le_split 4 n)) as H.
    rewrite !length_app, !length_le_split, Hmid in H.
    rewrite <- !app_assoc in H. apply H. reflexivity. }
  match goal with
  | |- context [BytesIO.write ?f (le_split 4 n)] =>
    replace (BytesIO.write f (le_split 4 n))
      with (BytesIO.mk (list_byte_of_string "RIFF"
                        ++ le_split 4 (36 + n) ++ mid
                        ++ le_split 4 n ++ pcm) 44)
      by (symmetry; exact Hw)
  end.
  cbn [BytesIO.buf BytesIO.pos]. reflexivity.
Qed.

(** The whole encoder for parameters that fit the header's fields. *)
Lemma pcm_to_wav_general pcm sr ch sw :
  1 <= ch <= Struct.H_MAX -> 1 <= sw <= 4 -> ch * sw <= Struct.H_MAX ->
  0 < sr -> ch * sr * sw <= Struct.L_MAX ->
  36 + Z.of_nat (length pcm) <= Struct.L_MAX ->
  pcm_to_wav pcm sr ch sw
  = Ok (wav_header sr ch sw (Z.of_nat (length pcm)) ++ pcm).
Proof.
  intros Hch Hsw Hal Hsr Hbr Hn.
  set (n := Z.of_nat (length pcm)) in *.
  assert (Hn0 : 0 <= n) by (subst n; lia).
  assert (Hfs : 0 < ch * sw) by nia.
  assert (Hdiv : 0 <= n / (ch * sw) * ch * sw <= n).
  { pose proof (Z.mul_div_le n (ch * sw) Hfs).
    pose proof (Z.div_pos n (ch * sw) Hn0 Hfs).
    replace (n / (ch * sw) * ch * sw) with (ch * sw * (n / (ch * sw)))
      by ring. nia. }
  unfold pcm_to_wav. rewrite pcm_to_wav_body_general by lia.
  unfold Wave.writeframes, Wave.writeframesraw, Wave.ensure_header_written.
  wave_fields.
  destruct (Z.eqb_spec ch 0); [lia|]. destruct (Z.eqb_spec sw 0); [lia|].
  destruct (Z.eqb_spec sr 0); [lia|].
  fold n.
  rewrite (write_header_general sr ch sw (n / (ch * sw) * ch * sw) n)
    by (try reflexivity; lia).
  wave_fields.
  replace 44%nat
    with (length (wav_header sr ch sw (n / (ch * sw) * ch * sw)))
    by apply wav_header_length.
  rewrite write_end. change (0 + n) with n.
  unfold Wave.close, Wave.ensure_header_written.
  destruct (Z.eqb_spec (n / (ch * sw) * ch * sw) n) as [He|Hne].
  - wave_fields. rewrite He, Z.eqb_refl. reflexivity.
  - rewrite patchheader_general by lia.
    wave_fields. rewrite Z.eqb_refl. reflexivity.
Qed.

(** A field either fits and is packed, or [struct.error] is raised. *)
Lemma pack_L_cases v :
  (0 <= v <= Struct.L_MAX /\ Struct.pack_L v = Ok (le_split 4 v))
  \/ (~ 0 <= v <= Struct.L_MAX
      /\ exists m, Struct.pack_L v = Raise (StructError m)).
Proof.
  unfold Struct.pack_L.
  destruct (Z.leb_spec 0 v), (Z.leb_spec v Struct.L_MAX); cbn [andb];
    first [left; split; [lia|reflexivity] | right; split; [lia|eauto]].
Qed.

Lemma pack_H_cases v :
  (0 <= v <= Struct.H_MAX /\ Struct.pack_H v = Ok (le_split 2 v))
  \/ (~ 0 <= v <= Struct.H_MAX
      /\ exists m, Struct.pack_H v = Raise (StructError m)).
Proof.
  unfold Struct.pack_H.
  destruct (Z.leb_spec 0 v), (Z.leb_spec v Struct.H_MAX); cbn [andb];
    first [left; split; [lia|reflexivity] | right; split; [lia|eauto]].
Qed.

(** Packing the header either gives its bytes, and then every field fits,
    or raises [struct.error]. *)
Lemma pack_header_cases w dlen :
  (36 + dlen <= Struct.L_MAX /\ Wave.nchannels w <= Struct.H_MAX
   /\ Wave.nchannels w * Wave.framerate w * Wave.sampwidth w <= Struct.L_MAX
   /\ Wave.nchannels w * Wave.sampwidth w <= Struct.H_MAX
   /\ exists hdr, Wave.pack_header w dlen = Ok hdr)
  \/ exists m, Wave.pack_header w dlen = Raise (StructError m).
Proof.
  unfold Wave.pack_header.
  destruct (pack_L_cases (36 + dlen)) as [[H1 ->]|[_ [m ->]]];
    [|right; eexists; reflexivity].
  destruct (pack_L_cases 16) as [[H2 ->]|[_ [m ->]]]; [|right; eexists; reflexivity].
  destruct (pack_H_cases Wave.WAVE_FORMAT_PCM) as [[H3 ->]|[_ [m ->]]];
    [|right; eexists; reflexivity].
  destruct (pack_H_cases (Wave.nchannels w)) as [[H4 ->]|[_ [m ->]]];
    [|right; eexists; reflexivity].
  destruct (pack_L_cases (Wave.framerate w)) as [[H5 ->]|[_ [m ->]]];
    [|right; eexists; reflexivity].
  destruct (pack_L_cases
              (Wave.nchannels w * Wave.framerate w * Wave.sampwidth w))
    as [[H6 ->]|[_ [m ->]]]; [|right; eexists; reflexivity].
  destruct (pack_H_cases (Wave.nchannels w * Wave.sampwidth w))
    as [[H7 ->]|[_ [m ->]]]; [|right; eexists; reflexivity].
  destruct (pack_H_cases (Wave.sampwidth w * 8)) as [[H8 ->]|[_ [m ->]]];
    [|right; eexists; reflexivity].
  left. cbn [bind]. repeat (split; [lia|]). eauto.
Qed.

(** When the header cannot be packed, [_write_header] raises
    [struct.error] and leaves the parameters and the frame count it
    computed in the writer. *)
Lemma write_header_raises f ch sw sr nf nfw dw dl hw flp dlp init m :
  Wave.pack_header (Wave.mk f ch sw sr nf nfw dw dl hw flp dlp)
    ((if nf =? 0 then init / (ch * sw) else nf) * ch * sw)
  = Raise (StructError m) ->
  exists f' dl' flp',
    Wave.write_header (Wave.mk f ch sw sr nf nfw dw dl hw flp dlp) init
    = inl (StructError m,
           Wave.mk f' ch sw sr (if nf =? 0 then init / (ch * sw) else nf)
                   nfw dw dl' false flp' dlp).
Proof.
  intros H. unfold Wave.write_header. wave_fields. rewrite H. eauto.
Qed.

(** Parameters the setters accept but the header cannot hold. *)
Lemma pcm_to_wav_unfit pcm sr ch sw :
  1 <= ch -> 1 <= sw <= 4 -> 0 < sr ->
  ~ (ch <= Struct.H_MAX /\ ch * sw <= Struct.H_MAX
     /\ ch * sr * sw <= Struct.L_MAX
     /\ 36 + Z.of_nat (length pcm) <= Struct.L_MAX) ->
  exists m, pcm_to_wav pcm sr ch sw = Raise (StructError m).
Proof.
  intros Hch Hsw Hsr Hbad.
  set (n := Z.of_nat (length pcm)) in *.
  assert (Hn0 : 0 <= n) by (subst n; lia).
  assert (Hfs : 0 < ch * sw) by nia.
  assert (Hdiv : 0 <= n / (ch * sw) * ch * sw <= n).
  { pose proof (Z.mul_div_le n (ch * sw) Hfs).
    pose proof (Z.div_pos n (ch * sw) Hn0 Hfs).
    replace (n / (ch * sw) * ch * sw) with (ch * sw * (n / (ch * sw)))
      by ring. nia. }
  unfold pcm_to_wav. rewrite pcm_to_wav_body_general by lia.
  unfold Wave.writeframes, Wave.writeframesraw.
  unfold Wave.ensure_header_written at 1. wave_fields.
  destruct (Z.eqb_spec ch 0); [lia|]. destruct (Z.eqb_spec sw 0); [lia|].
  destruct (Z.eqb_spec sr 0); [lia|].
  fold n.
  set (w0 := Wave.mk (BytesIO.mk [] 0) ch sw sr 0 0 0 0 false 0 0).
  destruct (pack_header_cases w0 (n / (ch * sw) * ch * sw))
    as [(H1 & H2 & H3 & H4 & _)|[m Hm]].
  - (* the header is written; the patch of the sizes fails *)
    subst w0. cbn [Wave.nchannels Wave.framerate Wave.sampwidth] in *.
    rewrite (write_header_general sr ch sw (n / (ch * sw) * ch * sw) n)
      by (try reflexivity; lia).
    wave_fields.
    assert (Hn : Struct.L_MAX < 36 + n) by lia.
    destruct (Z.eqb_spec (n / (ch * sw) * ch * sw) (0 + n)) as [He|Hne];
      [lia|].
    destruct (pack_L_overflow (36 + n) Hn) as [m Hm].
    unfold Wave.patchheader at 1. wave_fields.
    destruct (Z.eqb_spec (0 + n) (n / (ch * sw) * ch * sw)); [lia|].
    change (0 + n) with n. rewrite Hm.
    unfold Wave.set_file. wave_fields.
    unfold Wave.close, Wave.ensure_header_written. wave_fields.
    destruct (Z.eqb_spec (n / (ch * sw) * ch * sw) n); [lia|].
    unfold Wave.patchheader. wave_fields.
    destruct (Z.eqb_spec n (n / (ch * sw) * ch * sw)); [lia|].
    rewrite Hm. eauto.
  - (* the header is not written, neither by [close] *)
    destruct (write_header_raises (BytesIO.mk [] 0) ch sw sr 0 0 0 0 false
                0%nat 0%nat n m) as (f' & dl' & flp' & Hw).
    { exact Hm. }
    fold w0 in Hw. rewrite Hw.
    change (0 =? 0) with true. cbv iota.
    unfold Wave.close, Wave.ensure_header_written. wave_fields.
    destruct (Z.eqb_spec ch 0); [lia|]. destruct (Z.eqb_spec sw 0); [lia|].
    destruct (Z.eqb_spec sr 0); [lia|].
    set (w1 := Wave.mk f' ch sw sr (n / (ch * sw)) 0 0 dl' false flp' 0).
    destruct (pack_header_cases w1
                ((if n / (ch * sw) =? 0 then 0 / (ch * sw)
                  else n / (ch * sw)) * ch * sw))
      as [(H1 & H2 & H3 & H4 & _)|[m' Hm']].
    + (* the fields that do not depend on the length fit: the length
         did not, and [close] packs the same one *)
      exfalso.
      destruct (pack_header_cases w0 (n / (ch * sw) * ch * sw))
        as [(_ & _ & _ & _ & hdr & Hhdr)|_];
        [rewrite Hhdr in Hm; discriminate Hm|].
      subst w1. cbn [Wave.nchannels Wave.framerate Wave.sampwidth] in *.
      assert (Hlen : Struct.L_MAX < 36 + n / (ch * sw) * ch * sw).
      { destruct (Z.lt_ge_cases Struct.L_MAX
                    (36 + n / (ch * sw) * ch * sw)) as [|Hle]; [assumption|].
        exfalso.
        assert (Hok : exists hdr,
                   Wave.pack_header w0 (n / (ch * sw) * ch * sw) = Ok hdr).
        { unfold Wave.pack_header, w0. wave_fields.
          unfold Wave.WAVE_FORMAT_PCM.
          unfold Struct.L_MAX, Struct.H_MAX in *.
          rewrite !pack_L_ok by (unfold Struct.L_MAX; nia).
          rewrite !pack_H_ok by (unfold Struct.H_MAX; nia).
          cbn [bind]. eauto. }
        destruct Hok as [hdr Hhdr]. rewrite Hhdr in Hm. discriminate Hm. }
      destruct (Z.eqb_spec (n / (ch * sw)) 0) as [Hz|Hnz].
      * rewrite Hz in Hlen. unfold Struct.L_MAX in Hlen. lia.
      * lia.
    + destruct (write_header_raises f' ch sw sr (n / (ch * sw)) 0 0 dl'
                  false flp' 0%nat 0 m') as (f2 & dl2 & flp2 & Hw2).
      { exact Hm'. }
      fold w1 in Hw2. rewrite Hw2. eauto.
Qed.

End EncoderGeneral.

(** X1: with any channel count from 1 to 65535 and any sample width
    from 1 to 4 bytes whose block align and byte rate fit their fields,
    and a payload of at most 4294967259 bytes, the encoder returns the
    44-byte header followed by the payload as it is, also when the
    payload is not a whole number of frames: the fields read back as the
    channel count, the rate, the byte rate, the block align, the bits per
    sample and the two sizes. *)
Theorem encoder_any_format (pcm : bytes) (sample_rate channels sample_width : Z) :
  1 <= channels <= 65535 ->
  1 <= sample_width <= 4 ->
  channels * sample_width <= 65535 ->
  0 < sample_rate ->
  channels * sample_rate * sample_width <= 4294967295 ->
  Z.of_nat (length pcm) <= MAX_PAYLOAD ->
  exists wav,
    pcm_to_wav pcm sample_rate channels sample_width = Ok wav
    /\ wav = wav_header sample_rate channels sample_width
                        (Z.of_nat (length pcm)) ++ pcm
    /\ Z.of_nat (length wav) = 44 + Z.of_nat (length pcm)
    /\ Struct.unpack (slice 4 8 wav) = 36 + Z.of_nat (length pcm)
    /\ Struct.unpack (slice 22 24 wav) = channels
    /\ Struct.unpack (slice 24 28 wav) = sample_rate
    /\ Struct.unpack (slice 28 32 wav)
       = channels * sample_rate * sample_width
    /\ Struct.unpack (slice 32 34 wav) = channels * sample_width
    /\ Struct.unpack (slice 34 36 wav) = sample_width * 8
    /\ Struct.unpack (slice 40 44 wav) = Z.of_nat (length pcm)
    /\ skipn 44 wav = pcm.
Proof.
  intros Hch Hsw Hal Hsr Hbr Hn. unfold MAX_PAYLOAD in Hn.
  set (n := Z.of_nat (length pcm)) in *.
  assert (Hn0 : 0 <= n) by (subst n; lia).
  exists (wav_header sample_rate channels sample_width n ++ pcm).
  split.
  { apply pcm_to_wav_general; unfold Struct.H_MAX, Struct.L_MAX; lia. }
  split; [reflexivity|].
  split.
  { rewrite length_app, wav_header_length. subst n. lia. }
  split.
  { change (slice 4 8 (wav_header sample_rate channels sample_width n
                       ++ pcm)) with (le_split 4 (36 + n)).
    apply unpack_le_split_4. unfold Struct.L_MAX. lia. }
  split.
  { change (slice 22 24 (wav_header sample_rate channels sample_width n
                         ++ pcm)) with (le_split 2 channels).
    apply unpack_le_split_2. unfold Struct.H_MAX. lia. }
  split.
  { change (slice 24 28 (wav_header sample_rate channels sample_width n
                         ++ pcm)) with (le_split 4 sample_rate).
    apply unpack_le_split_4. unfold Struct.L_MAX. nia. }
  split.
  { change (slice 28 32 (wav_header sample_rate channels sample_width n
                         ++ pcm))
      with (le_split 4 (channels * sample_rate * sample_width)).
    apply unpack_le_split_4. unfold Struct.L_MAX. nia. }
  split.
  { change (slice 32 34 (wav_header sample_rate channels sample_width n
                         ++ pcm))
      with (le_split 2 (channels * sample_width)).
    apply unpack_le_split_2. unfold Struct.H_MAX. nia. }
  split.
  { change (slice 34 36 (wav_header sample_rate channels sample_width n
                         ++ pcm)) with (le_split 2 (sample_width * 8)).
    apply unpack_le_split_2. unfold Struct.H_MAX. lia. }
  split.
  { change (slice 40 44 (wav_header sample_rate channels sample_width n
                         ++ pcm)) with (le_split 4 n).
    apply unpack_le_split_4. unfold Struct.L_MAX. lia. }
  reflexivity.
Qed.

(** Seven bytes in three channels of three bytes each: two whole
    frames and one byte over; the data size is 7 all the same. *)
Lemma encoder_any_format_witness :
  exists wav,
    pcm_to_wav (list_byte_of_string "ABCDEFG") 24000 3 3 = Ok wav
    /\ length wav = 51%nat
    /\ Struct.unpack (slice 32 34 wav) = 9
    /\ Struct.unpack (slice 40 44 wav) = 7.
Proof.
  destruct (encoder_any_format (list_byte_of_string "ABCDEFG") 24000 3 3)
    as (wav & Hw & _ & Hlen & _ & _ & _ & _ & Hal & _ & Hdat & _);
    try lia.
  - unfold MAX_PAYLOAD. cbn. lia.
  - exists wav. repeat split; try assumption.
    apply Nat2Z.inj. rewrite Hlen. reflexivity.
Defined.

Section EncoderErrors.

Ltac wave_fields :=
  cbn [Wave.datawritten Wave.file Wave.nchannels Wave.sampwidth
       Wave.framerate Wave.nframes Wave.nframeswritten Wave.datalength
       Wave.headerwritten Wave.form_length_pos Wave.data_length_pos].

Lemma pcm_to_wav_bad_channels pcm sr ch sw :
  ch < 1 ->
  pcm_to_wav pcm sr ch sw = Raise (WaveError "# channels not specified").
Proof.
  intros Hch. unfold pcm_to_wav, pcm_to_wav_body, Wave.open.
  unfold Wave.setnchannels. wave_fields.
  change (negb (0 =? 0)) with false. cbv iota beta.
  destruct (Z.ltb_spec ch 1); [|lia]. reflexivity.
Qed.

Lemma pcm_to_wav_bad_width pcm sr ch sw :
  1 <= ch -> sw < 1 \/ 4 < sw ->
  pcm_to_wav pcm sr ch sw = Raise (WaveError "sample width not specified").
Proof.
  intros Hch Hsw. unfold pcm_to_wav, pcm_to_wav_body, Wave.open.
  unfold Wave.setnchannels. wave_fields.
  change (negb (0 =? 0)) with false. cbv iota beta.
  destruct (Z.ltb_spec ch 1); [lia|].
  unfold Wave.setsampwidth. wave_fields.
  change (negb (0 =? 0)) with false. cbv iota beta.
  assert (Hb : (sw <? 1) || (4 <? sw) = true).
  { destruct (Z.ltb_spec sw 1), (Z.ltb_spec 4 sw); try reflexivity; lia. }
  rewrite Hb. unfold Wave.close, Wave.ensure_header_written. wave_fields.
  destruct (Z.eqb_spec ch 0); [lia|]. reflexivity.
Qed.

Lemma pcm_to_wav_bad_rate pcm sr ch sw :
  1 <= ch -> 1 <= sw <= 4 -> sr <= 0 ->
  pcm_to_wav pcm sr ch sw
  = Raise (WaveError "sampling rate not specified").
Proof.
  intros Hch Hsw Hsr. unfold pcm_to_wav, pcm_to_wav_body, Wave.open.
  unfold Wave.setnchannels. wave_fields.
  change (negb (0 =? 0)) with false. cbv iota beta.
  destruct (Z.ltb_spec ch 1); [lia|].
  unfold Wave.setsampwidth. wave_fields.
  change (negb (0 =? 0)) with false. cbv iota beta.
  destruct (Z.ltb_spec sw 1); [lia|]. destruct (Z.ltb_spec 4 sw); [lia|].
  cbn [orb]. unfold Wave.setframerate. wave_fields.
  change (negb (0 =? 0)) with false. cbv iota beta.
  destruct (Z.leb_spec sr 0); [|lia].
  unfold Wave.close, Wave.ensure_header_written. wave_fields.
  destruct (Z.eqb_spec ch 0); [lia|]. destruct (Z.eqb_spec sw 0); [lia|].
  reflexivity.
Qed.

End EncoderErrors.

(** X2: the encoder returns a container exactly when the channel
    count is from 1 to 65535, the sample width from 1 to 4, the rate
    positive, the block align at most 65535, the byte rate at most
    4294967295 and the payload at most 4294967259 bytes; for every other
    input it raises. *)
Theorem encoder_returns_iff (pcm : bytes) (sample_rate channels sample_width : Z) :
  (exists wav, pcm_to_wav pcm sample_rate channels sample_width = Ok wav)
  <-> (1 <= channels <= 65535 /\ 1 <= sample_width <= 4
       /\ 0 < sample_rate /\ channels * sample_width <= 65535
       /\ channels * sample_rate * sample_width <= 4294967295
       /\ Z.of_nat (length pcm) <= MAX_PAYLOAD).
Proof.
  unfold MAX_PAYLOAD. split.
  - intros [wav Hwav].
    destruct (Z.lt_ge_cases channels 1) as [Hch|Hch].
    { rewrite pcm_to_wav_bad_channels in Hwav by assumption.
      discriminate Hwav. }
    destruct (Z.lt_ge_cases sample_width 1) as [Hsw|Hsw].
    { rewrite pcm_to_wav_bad_width in Hwav by (try lia; now left).
      discriminate Hwav. }
    destruct (Z.lt_ge_cases 4 sample_width) as [Hsw'|Hsw'].
    { rewrite pcm_to_wav_bad_width in Hwav by (try lia; now right).
      discriminate Hwav. }
    destruct (Z.lt_ge_cases 0 sample_rate) as [Hsr|Hsr].
    2:{ rewrite pcm_to_wav_bad_rate in Hwav by lia. discriminate Hwav. }
    destruct (Z.lt_ge_cases 65535 channels) as [H1|H1].
    { destruct (pcm_to_wav_unfit pcm sample_rate channels sample_width)
        as [m Hm]; try lia; [unfold Struct.H_MAX; lia|].
      rewrite Hm in Hwav. discriminate Hwav. }
    destruct (Z.lt_ge_cases 65535 (channels * sample_width)) as [H2|H2].
    { destruct (pcm_to_wav_unfit pcm sample_rate channels sample_width)
        as [m Hm]; try lia; [unfold Struct.H_MAX; lia|].
      rewrite Hm in Hwav. discriminate Hwav. }
    destruct (Z.lt_ge_cases 4294967295
                (channels * sample_rate * sample_width)) as [H3|H3].
    { destruct (pcm_to_wav_unfit pcm sample_rate channels sample_width)
        as [m Hm]; try lia; [unfold Struct.L_MAX; lia|].
      rewrite Hm in Hwav. discriminate Hwav. }
    destruct (Z.lt_ge_cases 4294967259 (Z.of_nat (length pcm))) as [H4|H4].
    { destruct (pcm_to_wav_unfit pcm sample_rate channels sample_width)
        as [m Hm]; try lia; [unfold Struct.L_MAX; lia|].
      rewrite Hm in Hwav. discriminate Hwav. }
    lia.
  - intros (Hch & Hsw & Hsr & Hal & Hbr & Hn). eexists.
    apply pcm_to_wav_general; unfold Struct.H_MAX, Struct.L_MAX; lia.
Qed.

(** X3: a channel count below 1 makes the encoder raise [wave.Error]
    with the text of [close], not the setter's: leaving the [with] block
    closes a writer that has no channel count, and that exception takes
    the place of "bad # of channels". *)
Theorem encoder_rejects_channels (pcm : bytes) (sample_rate channels sample_width : Z) :
  channels < 1 ->
  pcm_to_wav pcm sample_rate channels sample_width
  = Raise (WaveError "# channels not specified").
Proof. apply pcm_to_wav_bad_channels. Qed.

Lemma encoder_rejects_channels_witness :
  pcm_to_wav (list_byte_of_string "ABCD") 24000 0 2
  = Raise (WaveError "# channels not specified").
Proof.
  apply (encoder_rejects_channels (list_byte_of_string "ABCD") 24000 0 2).
  lia.
Defined.

(** X4: with a valid channel count, a sample width outside 1 to 4
    makes the encoder raise [wave.Error] "sample width not specified",
    and with a valid width a rate of zero or less makes it raise
    "sampling rate not specified", whatever the payload. *)
Theorem encoder_rejects_width_and_rate (pcm : bytes) (sample_rate channels sample_width : Z) :
  1 <= channels ->
  (sample_width < 1 \/ 4 < sample_width ->
   pcm_to_wav pcm sample_rate channels sample_width
   = Raise (WaveError "sample width not specified"))
  /\ (1 <= sample_width <= 4 -> sample_rate <= 0 ->
      pcm_to_wav pcm sample_rate channels sample_width
      = Raise (WaveError "sampling rate not specified")).
Proof.
  intros Hch. split.
  - intros Hsw. now apply pcm_to_wav_bad_width.
  - intros Hsw Hsr. now apply pcm_to_wav_bad_rate.
Qed.

Lemma encoder_rejects_width_and_rate_witness :
  pcm_to_wav (list_byte_of_string "ABCD") 24000 1 5
  = Raise (WaveError "sample width not specified")
  /\ pcm_to_wav (list_byte_of_string "ABCD") (-5) 1 2
     = Raise (WaveError "sampling rate not specified").
Proof.
  split.
  - apply (encoder_rejects_width_and_rate (list_byte_of_string "ABCD")
             24000 1 5); lia.
  - apply (encoder_rejects_width_and_rate (list_byte_of_string "ABCD")
             (-5) 1 2); lia.
Defined.

(** X5: parameters the setters accept but the header cannot hold (a
    channel count or block align over 65535, a byte rate over
    4294967295, a payload over 4294967259 bytes) make the encoder raise
    [struct.error], never [wave.Error], and never return a truncated
    container. *)
Theorem encoder_overflow_is_struct_error (pcm : bytes) (sample_rate channels sample_width : Z) :
  1 <= channels -> 1 <= sample_width <= 4 -> 0 < sample_rate ->
  65535 < channels * sample_width
  \/ 4294967295 < channels * sample_rate * sample_width
  \/ MAX_PAYLOAD < Z.of_nat (length pcm) ->
  exists m,
    pcm_to_wav pcm sample_rate channels sample_width
    = Raise (StructError m).
Proof.
  unfold MAX_PAYLOAD. intros Hch Hsw Hsr Hbad.
  apply pcm_to_wav_unfit; try assumption.
  unfold Struct.H_MAX, Struct.L_MAX. lia.
Qed.

(** 70000 channels: the block align does not fit sixteen bits. *)
Lemma encoder_overflow_is_struct_error_witness :
  exists m,
    pcm_to_wav (list_byte_of_string "ABCD") 24000 70000 2
    = Raise (StructError m).
Proof.
  apply (encoder_overflow_is_struct_error (list_byte_of_string "ABCD")
           24000 70000 2); try lia.
Defined.

(** ** The loop over the response, part by part *)

Section Stream.
Import Predictor.

(** Items before any end flag that the loop gets through act by their
    frames only. *)
Lemma consume_app pre rest acc :
  no_end pre = true -> forallb passes pre = true ->
  consume (pre ++ rest) acc = consume rest (acc ++ frames pre).
Proof.
  revert acc. induction pre as [|[ev|msg] pre IH]; intros acc Hne Hp.
  - cbn. now rewrite app_nil_r.
  - unfold no_end in Hne. cbn [forallb] in Hne, Hp.
    apply andb_true_iff in Hne as [Hev Hne].
    apply andb_true_iff in Hp as [Hpass Hp].
    apply negb_true_iff in Hev.
    cbn [app consume].
    pose proof (loop_body_spec acc ev) as Hspec.
    pose proof (passes_no_escape acc ev Hpass) as Hesc.
    destruct (loop_body acc ev) as [acc'|acc'|e].
    + destruct Hspec as [_ ->]. rewrite IH by assumption.
      rewrite frames_cons, app_assoc. reflexivity.
    + destruct Hspec as [Hc _]. congruence.
    + contradiction.
  - cbn [forallb passes] in Hp. discriminate Hp.
Qed.

(** An object without audio and without the end flag leaves the chunks
    as they are. *)
Lemma loop_body_inert d acc :
  audio_bearing (Json (JDict d)) = false ->
  carries_end (Json (JDict d)) = false ->
  loop_body acc (Json (JDict d)) = Continue acc.
Proof.
  cbn [audio_bearing carries_end loop_body]. intros -> ->. reflexivity.
Qed.

Lemma consume_inert d r1 r2 acc :
  audio_bearing (Json (JDict d)) = false ->
  carries_end (Json (JDict d)) = false ->
  chunks (consume (r1 ++ Yield (Json (JDict d)) :: r2) acc)
  = chunks (consume (r1 ++ r2) acc)
  /\ raised (consume (r1 ++ Yield (Json (JDict d)) :: r2) acc)
     = raised (consume (r1 ++ r2) acc).
Proof.
  intros Ha He. revert acc. induction r1 as [|[ev|msg] r1 IH]; intros acc.
  - cbn [app consume]. rewrite loop_body_inert by assumption.
    split; reflexivity.
  - cbn [app consume].
    destruct (loop_body acc ev); [apply IH|split; reflexivity..].
  - split; reflexivity.
Qed.

(** A value that is not an object has no [get]. *)
Lemma consume_non_object v rest acc :
  (forall d, v <> JDict d) ->
  consume (Yield (Json v) :: rest) acc
  = mk_exit acc rest
      (Some (AttributeError
               ("'" ++ type_name v ++ "' object has no attribute 'get'"))).
Proof.
  intros Hv. destruct v; try reflexivity. now destruct (Hv d).
Qed.

(** [finalize] on chunks that are there: the encoder decides. *)
Lemma finalize_nonempty sr audio_chunks fs :
  audio_chunks <> [] ->
  finalize sr audio_chunks fs
  = match pcm_to_wav (concat audio_chunks) (hz sr) DEFAULT_CHANNELS
                     DEFAULT_SAMPLE_WIDTH with
    | Raise e => (Propagated e, fs)
    | Ok wav_data =>
      (Returned OUTPUT_PATH, write_file fs OUTPUT_PATH wav_data)
    end.
Proof. destruct audio_chunks; [congruence|reflexivity]. Qed.

Lemma hz_range sr : 0 < hz sr <= MAX_RATE.
Proof. destruct sr; unfold MAX_RATE; cbn; lia. Qed.

(** [predict] by cases. *)
Lemma predict_cases sr resp fs :
  (exists e, raised (consume resp []) = Some e
     /\ predict sr resp fs
        = (RuntimeError (fst (handler (exn_str e)))
                        (snd (handler (exn_str e))), fs))
  \/ (raised (consume resp []) = None
      /\ chunks (consume resp []) = []
      /\ predict sr resp fs = (RuntimeError EmptyAudio EMPTY_MESSAGE, fs))
  \/ (raised (consume resp []) = None
      /\ chunks (consume resp []) <> []
      /\ MAX_PAYLOAD < Z.of_nat (length (concat (chunks (consume resp []))))
      /\ exists m, predict sr resp fs = (Propagated (StructError m), fs))
  \/ (raised (consume resp []) = None
      /\ chunks (consume resp []) <> []
      /\ Z.of_nat (length (concat (chunks (consume resp [])))) <= MAX_PAYLOAD
      /\ predict sr resp fs
         = (Returned OUTPUT_PATH,
            write_file fs OUTPUT_PATH
              (wav_header (hz sr) 1 2
                 (Z.of_nat (length (concat (chunks (consume resp [])))))
               ++ concat (chunks (consume resp []))))).
Proof.
  destruct (raised (consume resp [])) as [e|] eqn:Hr.
  { left. exists e. split; [reflexivity|]. now apply predict_raised. }
  right. unfold predict. rewrite Hr.
  destruct (chunks (consume resp [])) as [|c cs] eqn:Hc.
  { left. repeat split. }
  right. rewrite finalize_nonempty by discriminate.
  set (pcm := concat (c :: cs)).
  destruct (Z.le_gt_cases (Z.of_nat (length pcm)) MAX_PAYLOAD) as [Hn|Hn].
  - right. split; [reflexivity|]. split; [discriminate|].
    split; [assumption|].
    unfold DEFAULT_CHANNELS, DEFAULT_SAMPLE_WIDTH.
    rewrite pcm_to_wav_ok by (try apply hz_range; assumption).
    reflexivity.
  - left. split; [reflexivity|]. split; [discriminate|].
    split; [assumption|].
    destruct (pcm_to_wav_too_long pcm (hz sr)) as [m Hm];
      [apply hz_range|assumption|].
    unfold DEFAULT_CHANNELS, DEFAULT_SAMPLE_WIDTH. rewrite Hm. eauto.
Qed.

Lemma payload_chunks resp :
  raised (consume resp []) = None -> chunks (consume resp []) <> [] ->
  payload resp = Some (concat (chunks (consume resp []))).
Proof.
  intros Hr Hc. unfold payload. rewrite Hr.
  destruct (chunks (consume resp [])); [congruence|reflexivity].
Qed.

Lemma payload_some resp pcm :
  payload resp = Some pcm ->
  raised (consume resp []) = None /\ chunks (consume resp []) <> []
  /\ pcm = concat (chunks (consume resp [])).
Proof.
  unfold payload. destruct (raised (consume resp [])); [discriminate|].
  destruct (chunks (consume resp [])); [discriminate|].
  intros [= <-]. repeat split. discriminate.
Qed.

End Stream.

(** X6: an event that parses to an object which neither bears audio
    (its Type is not "audio", or its Audio is absent or empty) nor has
    the end flag is passed over: with or without it, anywhere in the
    response, the loop leaves the same chunks and the same exception, the
    payload is the same and [predict] ends the same way. An Audio value
    under another Type is dropped with it. *)
Theorem inert_object_ignored (d : list (string * json))
    (r1 r2 : list Predictor.item) :
  audio_bearing (Predictor.Json (JDict d)) = false ->
  carries_end (Predictor.Json (JDict d)) = false ->
  Predictor.chunks
    (Predictor.consume
       (r1 ++ Predictor.Yield (Predictor.Json (JDict d)) :: r2) [])
  = Predictor.chunks (Predictor.consume (r1 ++ r2) [])
  /\ Predictor.payload
       (r1 ++ Predictor.Yield (Predictor.Json (JDict d)) :: r2)
     = Predictor.payload (r1 ++ r2)
  /\ forall sr fs,
       Predictor.predict sr
         (r1 ++ Predictor.Yield (Predictor.Json (JDict d)) :: r2) fs
       = Predictor.predict sr (r1 ++ r2) fs.
Proof.
  intros Ha He.
  destruct (consume_inert d r1 r2 [] Ha He) as [Hc Hr].
  split; [exact Hc|]. split.
  - unfold Predictor.payload. now rewrite Hc, Hr.
  - intros sr fs. unfold Predictor.predict. now rewrite Hc, Hr.
Qed.

(** A subtitle event that has an Audio value, between a frame and the
    end: the payload is the frame alone. *)
Lemma inert_object_ignored_witness :
  Predictor.payload
    [audio_event "QUJDRA==";
     Predictor.Yield
       (Predictor.Json (JDict [("Type"%string, JStr "text");
                               ("Audio"%string, JStr "RUZHSA==")]));
     end_event]
  = Some (list_byte_of_string "ABCD").
Proof.
  pose proof (inert_object_ignored
                [("Type"%string, JStr "text");
                 ("Audio"%string, JStr "RUZHSA==")]
                [audio_event "QUJDRA=="] [end_event]
                eq_refl eq_refl) as (_ & Hp & _).
  cbn [app] in Hp. rewrite Hp. reflexivity.
Defined.

(** X7: when pulling the next item raises before any end flag, after
    items the loop got through, the frames collected so far are dropped:
    [predict] raises the handler's error for the exception's text, there
    is no payload, no file is written and nothing after the fault is
    read. *)
Theorem fault_discards_frames (pre post : list Predictor.item)
    (msg : string) (sr : Predictor.sample_rate) (fs : Predictor.files) :
  no_end pre = true ->
  forallb passes pre = true ->
  Predictor.consume (pre ++ Predictor.Fault msg :: post) []
  = Predictor.mk_exit (frames pre) post (Some (Upstream msg))
  /\ Predictor.payload (pre ++ Predictor.Fault msg :: post) = None
  /\ Predictor.predict sr (pre ++ Predictor.Fault msg :: post) fs
     = (Predictor.RuntimeError (fst (Predictor.handler msg))
                               (snd (Predictor.handler msg)), fs).
Proof.
  intros Hne Hp.
  assert (Hc : Predictor.consume (pre ++ Predictor.Fault msg :: post) []
               = Predictor.mk_exit (frames pre) post (Some (Upstream msg))).
  { rewrite consume_app by assumption. reflexivity. }
  split; [exact Hc|]. split.
  - unfold Predictor.payload. rewrite Hc. reflexivity.
  - rewrite (predict_raised sr _ fs (Upstream msg)); [reflexivity|].
    rewrite Hc. reflexivity.
Qed.

(** The connection drops after the first frame. *)
Lemma fault_discards_frames_witness :
  Predictor.predict Predictor.Hz24000
    ([audio_event "QUJDRA=="]
     ++ Predictor.Fault "Connection reset by peer"
        :: [audio_event "RUZHSA=="; end_event]) []
  = (Predictor.RuntimeError Predictor.UnknownUpstreamError
       "TTS API error: Connection reset by peer", []).
Proof.
  apply (fault_discards_frames [audio_event "QUJDRA=="]
           [audio_event "RUZHSA=="; end_event] "Connection reset by peer"
           Predictor.Hz24000 [] eq_refl eq_refl).
Defined.

(** X8: an event whose text is valid JSON but not an object (null, a
    number, a string, a list), met before any end flag, ends the whole
    synthesis: the attribute error is not among the exceptions the loop
    passes over, so [predict] raises "TTS API error: '<type>' object has
    no attribute 'get'", the frames collected are dropped and no file is
    written. *)
Theorem non_object_event_aborts (pre post : list Predictor.item)
    (v : json) (sr : Predictor.sample_rate) (fs : Predictor.files) :
  no_end pre = true ->
  forallb passes pre = true ->
  (forall d, v <> JDict d) ->
  Predictor.predict sr (pre ++ Predictor.Yield (Predictor.Json v) :: post)
                    fs
  = (Predictor.RuntimeError Predictor.UnknownUpstreamError
       ("TTS API error: '" ++ type_name v
        ++ "' object has no attribute 'get'")%string, fs).
Proof.
  intros Hne Hp Hv.
  rewrite (predict_raised sr _ fs
             (AttributeError
                ("'" ++ type_name v ++ "' object has no attribute 'get'"))).
  - destruct v; reflexivity.
  - rewrite consume_app by assumption.
    rewrite consume_non_object by assumption. reflexivity.
Qed.

(** A frame, then an event whose text is [null]. *)
Lemma non_object_event_aborts_witness :
  Predictor.predict Predictor.Hz24000
    ([audio_event "QUJDRA=="]
     ++ Predictor.Yield (Predictor.Json JNone) :: [end_event]) []
  = (Predictor.RuntimeError Predictor.UnknownUpstreamError
       "TTS API error: 'NoneType' object has no attribute 'get'", []).
Proof.
  apply (non_object_event_aborts [audio_event "QUJDRA=="] [end_event]
           JNone Predictor.Hz24000 [] eq_refl eq_refl).
  intros d H. discriminate H.
Defined.

(** X9: the test for missing audio looks at the list of chunks, not at
    their bytes: when the loop ends without an exception with at least
    one chunk and every chunk is empty, [predict] returns, and the file
    is the 44-byte header alone with both sizes for no data. *)
Theorem empty_frames_give_header_only (sr : Predictor.sample_rate)
    (resp : list Predictor.item) (fs : Predictor.files) :
  Predictor.raised (Predictor.consume resp []) = None ->
  Predictor.chunks (Predictor.consume resp []) <> [] ->
  concat (Predictor.chunks (Predictor.consume resp [])) = [] ->
  Predictor.predict sr resp fs
  = (Predictor.Returned Predictor.OUTPUT_PATH,
     Predictor.write_file fs Predictor.OUTPUT_PATH
       (wav_header (Predictor.hz sr) 1 2 0))
  /\ length (wav_header (Predictor.hz sr) 1 2 0) = 44%nat
  /\ Struct.unpack (slice 4 8 (wav_header (Predictor.hz sr) 1 2 0)) = 36
  /\ Struct.unpack (slice 40 44 (wav_header (Predictor.hz sr) 1 2 0)) = 0.
Proof.
  intros Hr Hc He. split.
  - destruct (predict_cases sr resp fs)
      as [(e & Hr' & _)|[(_ & Hc' & _)|[(_ & _ & Hn & _)|(_ & _ & _ & Hp)]]].
    + congruence.
    + contradiction.
    + rewrite He in Hn. unfold MAX_PAYLOAD in Hn. cbn in Hn. lia.
    + rewrite He in Hp. cbn [length Z.of_nat] in Hp.
      rewrite app_nil_r in Hp. exact Hp.
  - destruct sr; repeat split.
Qed.

(** An Audio text of padding alone decodes to no bytes. *)
Lemma empty_frames_give_header_only_witness :
  Predictor.predict Predictor.Hz24000 [audio_event "===="; end_event] []
  = (Predictor.Returned Predictor.OUTPUT_PATH,
     [(Predictor.OUTPUT_PATH, wav_header 24000 1 2 0)]).
Proof.
  apply (empty_frames_give_header_only Predictor.Hz24000
           [audio_event "===="; end_event] []).
  - reflexivity.
  - discriminate.
  - reflexivity.
Defined.

(** X10: [predict] returns exactly when the loop leaves a payload and
    the payload has at most 4294967259 bytes; whenever it returns, the
    path is /tmp/output.wav and the file there holds the header for the
    requested rate followed by the payload, whatever the file held
    before. *)
Theorem predict_returns_iff (sr : Predictor.sample_rate)
    (resp : list Predictor.item) (fs : Predictor.files) :
  ((exists p fs', Predictor.predict sr resp fs = (Predictor.Returned p, fs'))
   <-> (exists pcm, Predictor.payload resp = Some pcm
                    /\ Z.of_nat (length pcm) <= MAX_PAYLOAD))
  /\ forall p fs',
       Predictor.predict sr resp fs = (Predictor.Returned p, fs') ->
       p = Predictor.OUTPUT_PATH
       /\ exists pcm,
            Predictor.payload resp = Some pcm
            /\ Predictor.read_file fs' p
               = Some (wav_header (Predictor.hz sr) 1 2
                         (Z.of_nat (length pcm)) ++ pcm).
Proof.
  pose proof (predict_cases sr resp fs) as Hcases. split; [split|].
  - intros (p & fs' & Hp).
    destruct Hcases
      as [(e & _ & H)|[(_ & _ & H)|[(_ & _ & _ & m & H)|(Hr & Hc & Hn & _)]]];
      try (rewrite H in Hp; discriminate Hp).
    eexists. split; [now apply payload_chunks|assumption].
  - intros (pcm & Hpay & Hn).
    apply payload_some in Hpay as (Hr & Hc & ->).
    destruct Hcases
      as [(e & Hr' & _)|[(_ & Hc' & _)|[(_ & _ & Hn' & _)|(_ & _ & _ & H)]]].
    + congruence.
    + contradiction.
    + lia.
    + eauto.
  - intros p fs' Hp.
    destruct Hcases
      as [(e & _ & H)|[(_ & _ & H)|[(_ & _ & _ & m & H)|(Hr & Hc & Hn & H)]]];
      try (rewrite H in Hp; discriminate Hp).
    rewrite H in Hp. injection Hp as <- <-. split; [reflexivity|].
    eexists. split; [now apply payload_chunks|].
    apply read_write_file.
Qed.

(** ** The exceptions of the loop body and the handler *)

Section Classification.
Import Predictor.

(** None of the three markers begins with a digit. *)
Lemma contains_after_digits needle u rest :
  needle = "AuthFailure"%string \/ needle = "InvalidParameter"%string
  \/ needle = "RequestLimitExceeded"%string ->
  contains needle (NilEmpty.string_of_uint u ++ rest)
  = contains needle rest.
Proof.
  intros [-> | [-> | ->]]; induction u; cbn; try reflexivity; assumption.
Qed.

(** The text of an exception of [b64decode] has none of the markers. *)
Lemma b64decode_raise_unknown v e :
  b64decode v = Raise e ->
  handler (exn_str e)
  = (UnknownUpstreamError, ("TTS API error: " ++ exn_str e)%string).
Proof.
  destruct v; cbn [b64decode]; try (intros [= <-]; reflexivity).
  unfold Base64.b64decode_str.
  destruct (Base64.is_ascii s); [|intros [= <-]; reflexivity].
  unfold Base64.a2b_base64.
  destruct (Base64.a2b_loop (list_byte_of_string s) 0 0 0 [])
    as [q out].
  destruct (q =? 0); [discriminate|].
  destruct (q =? 1); intros [= <-]; [|reflexivity].
  cbn [exn_str]. unfold Base64.decimal.
  apply handler_unknown; cbn; rewrite contains_after_digits by tauto;
    reflexivity.
Qed.

(** So has the text of any exception the loop body lets out. *)
Lemma loop_body_escape_unknown acc ev e :
  loop_body acc ev = Escape e ->
  handler (exn_str e)
  = (UnknownUpstreamError, ("TTS API error: " ++ exn_str e)%string).
Proof.
  destruct ev as [| |v]; cbn [loop_body]; try discriminate.
  destruct v; try (intros [= <-]; reflexivity).
  destruct (eq_str (get d "Type") "audio" && truthy (get d "Audio")).
  - destruct (lookup d "Audio") as [a|]; [|discriminate].
    destruct (b64decode a) as [chunk|e'] eqn:Hb.
    + destruct (truthy (get d "IsEnd")); discriminate.
    + intros [= <-]. now apply (b64decode_raise_unknown a).
  - destruct (truthy (get d "IsEnd")); discriminate.
Qed.

(** An exception that leaves the loop is the client's or the body's. *)
Lemma consume_raised resp acc e :
  raised (consume resp acc) = Some e ->
  (exists msg, In (Fault msg) resp /\ e = Upstream msg)
  \/ exists acc' ev, loop_body acc' ev = Escape e.
Proof.
  revert acc. induction resp as [|[ev|msg] resp IH]; intros acc.
  - discriminate.
  - cbn [consume]. destruct (loop_body acc ev) as [acc'|acc'|e'] eqn:Hb.
    + intros H. destruct (IH _ H) as [(msg & Hin & ->)|H'].
      * left. exists msg. split; [now right|reflexivity].
      * now right.
    + discriminate.
    + cbn [raised]. intros [= <-]. right. eauto.
  - cbn [consume raised]. intros [= <-]. left. exists msg.
    split; [now left|reflexivity].
Qed.

(** A substring of a text is a substring of the text behind a prefix. *)
Lemma contains_append s p hay :
  contains s hay = true -> contains s (p ++ hay) = true.
Proof.
  intros H. induction p as [|c p IH]; [exact H|].
  cbn [append contains]. rewrite IH. apply orb_true_r.
Qed.

End Classification.

(** X12: the three named upstream errors come from the client alone.
    When no pull of the response raises, an exception that leaves the
    loop is one of the loop body's own (bad base64 text, an Audio that
    is not a string, a value that is not an object), and whatever the
    events hold [predict] raises "TTS API error: " followed by the
    exception's text: never the authentication, parameter or rate
    error. *)
Theorem body_exception_is_unknown_upstream (sr : Predictor.sample_rate)
    (resp : list Predictor.item) (fs : Predictor.files) (e : exn) :
  (forall msg, ~ In (Predictor.Fault msg) resp) ->
  Predictor.raised (Predictor.consume resp []) = Some e ->
  Predictor.predict sr resp fs
  = (Predictor.RuntimeError Predictor.UnknownUpstreamError
       ("TTS API error: " ++ exn_str e)%string, fs).
Proof.
  intros Hnf Hr. rewrite (predict_raised sr resp fs e Hr).
  destruct (consume_raised resp [] e Hr) as [(msg & Hin & _)|(acc & ev & Hb)].
  - now destruct (Hnf msg).
  - now rewrite (loop_body_escape_unknown acc ev e Hb).
Qed.

(** Five data characters: one more than a multiple of four. *)
Lemma body_exception_is_unknown_upstream_witness :
  Predictor.predict Predictor.Hz24000
    [audio_event "QUJDRA=="; audio_event "QUJDR"; end_event] []
  = (Predictor.RuntimeError Predictor.UnknownUpstreamError
       ("TTS API error: Invalid base64-encoded string: number of data "
        ++ "characters (5) cannot be 1 more than a multiple of 4"), []).
Proof.
  apply (body_exception_is_unknown_upstream Predictor.Hz24000
           [audio_event "QUJDRA=="; audio_event "QUJDR"; end_event] []
           (BinasciiError
              ("Invalid base64-encoded string: number of data "
               ++ "characters (5) cannot be 1 more than a multiple of 4"))).
  - intros msg [H|[H|[H|[]]]]; discriminate H.
  - reflexivity.
Defined.

(** X13: outside the authentication and the rate-limit branches the
    handler's message holds the whole text of the upstream exception:
    whatever is part of that text, a key or a request echoed by the
    service say, is part of the message [predict] raises. *)
Theorem handler_embeds_error_text (error_msg s : string) :
  Predictor.contains "AuthFailure" error_msg = false ->
  Predictor.contains "InvalidParameter" error_msg = true
  \/ Predictor.contains "RequestLimitExceeded" error_msg = false ->
  Predictor.contains s error_msg = true ->
  Predictor.contains s (snd (Predictor.handler error_msg)) = true
  /\ forall sr resp fs,
       Predictor.raised (Predictor.consume resp []) = Some (Upstream error_msg)
       -> exists kind msg,
            Predictor.predict sr resp fs
            = (Predictor.RuntimeError kind msg, fs)
            /\ Predictor.contains s msg = true.
Proof.
  intros Ha Hb Hs.
  assert (H : Predictor.contains s (snd (Predictor.handler error_msg))
              = true).
  { unfold Predictor.handler. rewrite Ha.
    destruct (Predictor.contains "InvalidParameter" error_msg).
    - cbn [snd]. now apply contains_append.
    - destruct Hb as [Hb|Hb]; [discriminate Hb|]. rewrite Hb.
      cbn [snd]. now apply contains_append. }
  split; [exact H|]. intros sr resp fs Hr.
  do 2 eexists. split; [apply (predict_raised sr resp fs _ Hr)|exact H].
Qed.

(** A parameter error that quotes the application id. *)
Lemma handler_embeds_error_text_witness :
  Predictor.contains "1400000001"
    (snd (Predictor.handler
            "InvalidParameter.SdkAppId: 1400000001 is not enabled"))
  = true.
Proof.
  apply (handler_embeds_error_text
           "InvalidParameter.SdkAppId: 1400000001 is not enabled"
           "1400000001" eq_refl (or_introl eq_refl) eq_refl).
Defined.

(** ** Characters outside the alphabet in an Audio text *)

Section Junk.
Import Predictor.

(** The decoder's loop steps over a byte that is neither in the alphabet
    nor the pad, in whatever state it is. *)
Lemma a2b_loop_junk c pre post quad_pos leftchar pads out :
  byte.unsigned c <> Base64.BASE64_PAD ->
  Base64.table_a2b c = None ->
  Base64.a2b_loop (pre ++ c :: post) quad_pos leftchar pads out
  = Base64.a2b_loop (pre ++ post) quad_pos leftchar pads out.
Proof.
  intros Hpad Htab. revert quad_pos leftchar pads out.
  induction pre as [|b pre IH]; intros quad_pos leftchar pads out.
  - cbn [app Base64.a2b_loop].
    destruct (Z.eqb_spec (byte.unsigned c) Base64.BASE64_PAD);
      [contradiction|].
    now rewrite Htab.
  - cbn [app Base64.a2b_loop].
    destruct (byte.unsigned b =? Base64.BASE64_PAD).
    + destruct ((2 <=? quad_pos) && (4 <=? quad_pos + (pads + 1)));
        [reflexivity|apply IH].
    + destruct (Base64.table_a2b b); [|apply IH].
      destruct (quad_pos =? 0); [apply IH|].
      destruct (quad_pos =? 1); [apply IH|].
      destruct (quad_pos =? 2); apply IH.
Qed.

Lemma list_byte_of_string_app s1 s2 :
  list_byte_of_string (s1 ++ s2)
  = list_byte_of_string s1 ++ list_byte_of_string s2.
Proof.
  induction s1 as [|c s1 IH]; [reflexivity|].
  cbn [append]. unfold list_byte_of_string in *.
  cbn [list_ascii_of_string map app]. now rewrite IH.
Qed.

Lemma list_byte_of_string_cons c s :
  list_byte_of_string (String c s)
  = byte_of_ascii c :: list_byte_of_string s.
Proof. reflexivity. Qed.

Lemma b64decode_str_junk c s1 s2 :
  byte.unsigned (byte_of_ascii c) < 128 ->
  byte.unsigned (byte_of_ascii c) <> Base64.BASE64_PAD ->
  Base64.table_a2b (byte_of_ascii c) = None ->
  Base64.b64decode_str (s1 ++ String c s2) = Base64.b64decode_str (s1 ++ s2).
Proof.
  intros Hasc Hpad Htab. unfold Base64.b64decode_str, Base64.is_ascii.
  rewrite !list_byte_of_string_app, list_byte_of_string_cons.
  rewrite !forallb_app. cbn [forallb].
  destruct (Z.ltb_spec (byte.unsigned (byte_of_ascii c)) 128); [|lia].
  cbn [andb]. unfold Base64.a2b_base64.
  now rewrite a2b_loop_junk.
Qed.

(** The loop body on an audio event without an end flag. *)
Lemma loop_body_audio_text a acc :
  a <> ""%string ->
  loop_body acc (Json (JDict [("Type"%string, JStr "audio");
                              ("Audio"%string, JStr a)]))
  = match Base64.b64decode_str a with
    | Ok chunk => Continue (acc ++ [chunk])
    | Raise e => Escape e
    end.
Proof.
  intros Ha. cbn.
  destruct (String.eqb_spec a ""); [contradiction|]. cbn.
  destruct (Base64.b64decode_str a); reflexivity.
Qed.

(** Two events the loop body treats alike are interchangeable. *)
Lemma consume_same_body ev1 ev2 r1 r2 acc :
  (forall acc', loop_body acc' ev1 = loop_body acc' ev2) ->
  chunks (consume (r1 ++ Yield ev1 :: r2) acc)
  = chunks (consume (r1 ++ Yield ev2 :: r2) acc)
  /\ raised (consume (r1 ++ Yield ev1 :: r2) acc)
     = raised (consume (r1 ++ Yield ev2 :: r2) acc).
Proof.
  intros H. revert acc. induction r1 as [|[ev|msg] r1 IH]; intros acc.
  - cbn [app consume]. rewrite H. split; reflexivity.
  - cbn [app consume].
    destruct (loop_body acc ev); [apply IH|split; reflexivity..].
  - split; reflexivity.
Qed.

End Junk.

(** X14: an ASCII character of an Audio text that is neither in the
    base64 alphabet nor the pad (a line break, a space, a quote) is
    stepped over: the text decodes the same with or without it, to the
    same bytes or the same exception. When the text without the
    character is not empty, [predict] ends the same way on a response
    whose audio event has it. When the text without it is empty the two
    events differ: the character alone makes an audio event of no bytes,
    which adds an empty chunk, and the empty text makes no audio event
    at all. *)
Theorem audio_text_junk_ignored (c : ascii) (s1 s2 : string) :
  byte.unsigned (byte_of_ascii c) < 128 ->
  byte.unsigned (byte_of_ascii c) <> Base64.BASE64_PAD ->
  Base64.table_a2b (byte_of_ascii c) = None ->
  Base64.b64decode_str (s1 ++ String c s2) = Base64.b64decode_str (s1 ++ s2)
  /\ ((s1 ++ s2)%string <> ""%string ->
      forall sr r1 r2 fs,
        Predictor.predict sr (r1 ++ audio_event (s1 ++ String c s2) :: r2) fs
        = Predictor.predict sr (r1 ++ audio_event (s1 ++ s2) :: r2) fs)
  /\ forall acc,
       Predictor.loop_body acc
         (Predictor.Json (JDict [("Type"%string, JStr "audio");
                                 ("Audio"%string, JStr (String c ""))]))
       = Predictor.Continue (acc ++ [[]])
       /\ Predictor.loop_body acc
            (Predictor.Json (JDict [("Type"%string, JStr "audio");
                                    ("Audio"%string, JStr "")]))
          = Predictor.Continue acc.
Proof.
  intros Hasc Hpad Htab.
  pose proof (b64decode_str_junk c s1 s2 Hasc Hpad Htab) as Hd.
  split; [exact Hd|]. split.
  - intros Hne sr r1 r2 fs.
    unfold Predictor.predict, audio_event.
    destruct (consume_same_body
                (Predictor.Json (JDict [("Type"%string, JStr "audio");
                                        ("Audio"%string,
                                         JStr (s1 ++ String c s2))]))
                (Predictor.Json (JDict [("Type"%string, JStr "audio");
                                        ("Audio"%string, JStr (s1 ++ s2))]))
                r1 r2 []) as [Hc Hr].
    + intros acc. rewrite !loop_body_audio_text; try assumption.
      * now rewrite Hd.
      * destruct s1; discriminate.
    + now rewrite Hc, Hr.
  - intros acc. split; [|reflexivity].
    rewrite loop_body_audio_text by discriminate.
    pose proof (b64decode_str_junk c "" "" Hasc Hpad Htab) as H0.
    cbn [append] in H0. rewrite H0. reflexivity.
Qed.

(** A line break in the middle of a frame's text. *)
Lemma audio_text_junk_ignored_witness :
  Base64.b64decode_str ("QUJD" ++ String "010" "RA==")
  = Ok (list_byte_of_string "ABCD").
Proof.
  destruct (audio_text_junk_ignored "010" "QUJD" "RA==") as [H _].
  - cbn. lia.
  - cbn. discriminate.
  - reflexivity.
  - rewrite H. reflexivity.
Defined.

(** ** The input checks and the request *)

Section Validation.

Lemma lstrip_nil s :
  Text.lstrip s = [] <-> forallb Text.isspace s = true.
Proof.
  induction s as [|c s IH]; [now split|].
  cbn [Text.lstrip forallb].
  destruct (Text.isspace c); cbn [andb]; [exact IH|].
  split; discriminate.
Qed.

(** [lstrip] drops white space from the front and nothing else. *)
Lemma lstrip_split s :
  exists lead, s = lead ++ Text.lstrip s
               /\ forallb Text.isspace lead = true.
Proof.
  induction s as [|c s (lead & IH & Hl)]; [now exists []|].
  cbn [Text.lstrip]. destruct (Text.isspace c) eqn:Hc.
  - exists (c :: lead). cbn [app forallb]. rewrite Hc, Hl.
    split; [now f_equal|reflexivity].
  - now exists [].
Qed.

Lemma lstrip_head s c rest :
  Text.lstrip s = c :: rest -> Text.isspace c = false.
Proof.
  induction s as [|b s IH]; [discriminate|].
  cbn [Text.lstrip]. destruct (Text.isspace b) eqn:Hb; [exact IH|].
  now intros [= <- _].
Qed.

Lemma forallb_rev {A} (f : A -> bool) l :
  forallb f (rev l) = forallb f l.
Proof.
  induction l as [|a l IH]; [reflexivity|].
  cbn [rev forallb]. rewrite forallb_app, IH. cbn [forallb].
  rewrite andb_true_r. apply andb_comm.
Qed.

Lemma rstrip_nil s :
  Text.rstrip s = [] <-> forallb Text.isspace s = true.
Proof.
  unfold Text.rstrip. rewrite <- (forallb_rev _ s), <- lstrip_nil.
  split; intros H.
  - apply (f_equal (@rev Z)) in H. now rewrite rev_involutive in H.
  - now rewrite H.
Qed.

(** [rstrip] drops white space from the back and nothing else. *)
Lemma rstrip_split s :
  exists trail, s = Text.rstrip s ++ trail
                /\ forallb Text.isspace trail = true.
Proof.
  destruct (lstrip_split (rev s)) as (lead & Hs & Hl).
  exists (rev lead). split; [|now rewrite forallb_rev].
  unfold Text.rstrip. rewrite <- rev_app_distr, <- Hs.
  now rewrite rev_involutive.
Qed.

Lemma rstrip_last s c front :
  Text.rstrip s = front ++ [c] -> Text.isspace c = false.
Proof.
  unfold Text.rstrip. intros H.
  apply (f_equal (@rev Z)) in H.
  rewrite rev_involutive, rev_app_distr in H. cbn [rev app] in H.
  exact (lstrip_head _ _ _ H).
Qed.

Lemma strip_nil s :
  Text.strip s = [] <-> forallb Text.isspace s = true.
Proof.
  unfold Text.strip. rewrite rstrip_nil. split; intros H.
  - apply lstrip_nil. destruct (Text.lstrip s) as [|c rest] eqn:Hl;
      [reflexivity|].
    cbn [forallb] in H. rewrite (lstrip_head _ _ _ Hl) in H.
    discriminate H.
  - apply lstrip_nil in H. now rewrite H.
Qed.

Lemma strip_head s c rest :
  Text.strip s = c :: rest -> Text.isspace c = false.
Proof.
  unfold Text.strip. intros H.
  destruct (rstrip_split (Text.lstrip s)) as (trail & Hs & _).
  rewrite H in Hs. exact (lstrip_head _ _ _ Hs).
Qed.

Lemma strip_last s c front :
  Text.strip s = front ++ [c] -> Text.isspace c = false.
Proof. unfold Text.strip. apply rstrip_last. Qed.

Lemma strip_length s : (length (Text.strip s) <= length s)%nat.
Proof.
  unfold Text.strip.
  destruct (rstrip_split (Text.lstrip s)) as (trail & Hr & _).
  destruct (lstrip_split s) as (lead & Hl & _).
  apply (f_equal (@length Z)) in Hr, Hl.
  rewrite length_app in Hr, Hl. lia.
Qed.

(** The three ways the checks of lines 129-136 end. *)
Lemma check_text_blank t :
  forallb Text.isspace t = true ->
  Entry.check_text t = Raise (ValueError "Text cannot be empty").
Proof.
  intros H. unfold Entry.check_text.
  apply strip_nil in H. rewrite H. now rewrite orb_true_r.
Qed.

Lemma check_text_not_blank t :
  forallb Text.isspace t = false ->
  match t with [] => true | _ => false end
  || match Text.strip t with [] => true | _ => false end = false.
Proof.
  intros H. destruct t as [|c t]; [discriminate H|]. cbn [orb].
  destruct (Text.strip (c :: t)) eqn:Hs; [|reflexivity].
  apply strip_nil in Hs. congruence.
Qed.

Lemma check_text_long t :
  forallb Text.isspace t = false ->
  Entry.MAX_TEXT_LENGTH < Z.of_nat (length t) ->
  Entry.check_text t
  = Raise (ValueError
             ("Text too long: " ++ Base64.decimal (length t)
              ++ " characters (max 2000)")).
Proof.
  intros Hb Hl. unfold Entry.check_text.
  rewrite (check_text_not_blank t Hb).
  destruct (Z.ltb_spec Entry.MAX_TEXT_LENGTH (Z.of_nat (length t)));
    [reflexivity|lia].
Qed.

Lemma check_text_ok t :
  Entry.check_text t = Ok tt ->
  forallb Text.isspace t = false
  /\ Z.of_nat (length t) <= Entry.MAX_TEXT_LENGTH.
Proof.
  unfold Entry.check_text.
  destruct (forallb Text.isspace t) eqn:Hb.
  { apply strip_nil in Hb. rewrite Hb, orb_true_r. discriminate. }
  rewrite (check_text_not_blank t Hb).
  destruct (Z.ltb_spec Entry.MAX_TEXT_LENGTH (Z.of_nat (length t)));
    [discriminate|]. now split.
Qed.

(** What [predict] sends when the checks pass. *)
Lemma request_well_formed i :
  Entry.check_text (Entry.text i) = Ok tt ->
  well_formed_request (Entry.make_client i) (Entry.make_params i).
Proof.
  intros H. apply check_text_ok in H as [Hb Hl].
  unfold well_formed_request, Entry.make_client, Entry.make_params.
  cbn [Entry.region Entry.endpoint Entry.Model Entry.Format
       Entry.AudioFormat Entry.Text].
  repeat (split; [reflexivity|]).
  split.
  { intros Hs. apply strip_nil in Hs. congruence. }
  split.
  { pose proof (strip_length (Entry.text i)). lia. }
  split.
  - intros c0 rest. apply strip_head.
  - intros c0 front. apply strip_last.
Qed.

End Validation.

(** X15: the service is only ever asked with a well-formed request:
    the program's region, endpoint and model, the "pcm" format, and a
    text that is not empty, has at most 2000 code points and has no white
    space at either end. The outcome of [predict] does not depend on what
    the service would answer to any other request. The text sent is the
    input text without its leading and trailing white space, nothing
    else removed. *)
Theorem upstream_sees_well_formed_requests
    (up1 up2 : Entry.client -> Entry.params -> list Predictor.item)
    (i : Entry.inputs) (fs : Predictor.files) :
  (forall c p, well_formed_request c p -> up1 c p = up2 c p) ->
  Entry.predict up1 i fs = Entry.predict up2 i fs
  /\ exists lead trail,
       Entry.text i = lead ++ Entry.Text (Entry.make_params i) ++ trail
       /\ forallb Text.isspace lead = true
       /\ forallb Text.isspace trail = true.
Proof.
  intros Hup. split.
  - unfold Entry.predict.
    destruct (Entry.check_text (Entry.text i)) as [[]|e] eqn:Hc;
      [|reflexivity].
    now rewrite (Hup _ _ (request_well_formed i Hc)).
  - destruct (lstrip_split (Entry.text i)) as (lead & Hl & Hlead).
    destruct (rstrip_split (Text.lstrip (Entry.text i)))
      as (trail & Hr & Htrail).
    exists lead, trail. repeat split; try assumption.
    cbn [Entry.make_params Entry.Text]. unfold Text.strip.
    now rewrite <- Hr.
Qed.

(** A service that answers nothing to a request without text is as good
    as one that always answers: for " Hi " the text sent is "Hi". *)
Lemma upstream_sees_well_formed_requests_witness :
  Entry.predict answers_scenario_A
                (with_defaults padded_hi "id" "key" 1400000001) []
  = Entry.predict
      (fun c p => match Entry.Text p with
                  | [] => []
                  | _ => scenario_A
                  end)
      (with_defaults padded_hi "id" "key" 1400000001) [].
Proof.
  apply (upstream_sees_well_formed_requests answers_scenario_A
           (fun c p => match Entry.Text p with
                       | [] => []
                       | _ => scenario_A
                       end)
           (with_defaults padded_hi "id" "key" 1400000001) []).
  intros c p (_ & _ & _ & _ & Ht & _).
  destruct (Entry.Text p); [now destruct Ht|reflexivity].
Defined.

(** X16: a text that is empty or white space only is refused with
    [ValueError] "Text cannot be empty", whatever its length (the test
    comes before the length test), whatever the service would answer,
    and no file is written. *)
Theorem blank_text_rejected
    (up : Entry.client -> Entry.params -> list Predictor.item)
    (i : Entry.inputs) (fs : Predictor.files) :
  forallb Text.isspace (Entry.text i) = true ->
  Entry.predict up i fs
  = (Predictor.Propagated (ValueError "Text cannot be empty"), fs).
Proof.
  intros H. unfold Entry.predict. now rewrite check_text_blank.
Qed.

(** 3000 no-break spaces. *)
Lemma blank_text_rejected_witness :
  Entry.predict answers_scenario_A
                (with_defaults (repeat 160 3000) "id" "key" 1400000001) []
  = (Predictor.Propagated (ValueError "Text cannot be empty"), []).
Proof.
  apply (blank_text_rejected answers_scenario_A
           (with_defaults (repeat 160 3000) "id" "key" 1400000001) []).
  vm_compute. reflexivity.
Defined.

(** X17: the length limit is on the text as given, not on the text
    sent: a text of more than 2000 code points that is not white space
    only is refused with [ValueError] "Text too long: <n> characters
    (max 2000)" for its own length n, also when without its outer white
    space it has 2000 or fewer; the service's answer plays no part and no
    file is written. *)
Theorem long_text_rejected
    (up : Entry.client -> Entry.params -> list Predictor.item)
    (i : Entry.inputs) (fs : Predictor.files) :
  forallb Text.isspace (Entry.text i) = false ->
  2000 < Z.of_nat (length (Entry.text i)) ->
  Entry.predict up i fs
  = (Predictor.Propagated
       (ValueError
          ("Text too long: " ++ Base64.decimal (length (Entry.text i))
           ++ " characters (max 2000)")), fs).
Proof.
  intros Hb Hl. unfold Entry.predict. now rewrite check_text_long.
Qed.

(** 2000 letters and one space: 2001 code points, of which 2000 would
    be sent. *)
Lemma long_text_rejected_witness :
  length (Text.strip full_length_padded) = 2000%nat
  /\ Entry.predict answers_scenario_A
       (with_defaults full_length_padded "id" "key" 1400000001) []
     = (Predictor.Propagated
          (ValueError "Text too long: 2001 characters (max 2000)"), []).
Proof.
  split; [vm_compute; reflexivity|].
  apply (long_text_rejected answers_scenario_A
           (with_defaults full_length_padded "id" "key" 1400000001) []).
  - vm_compute. reflexivity.
  - vm_compute. reflexivity.
Defined.

(** X18: when [predict] returns, the file it names declares in its
    header the sample rate that was put in the request (bytes 24-27),
    one channel and 16 bits per sample: the rate asked of the service
    and the rate the file claims cannot differ. *)
Theorem returned_file_declares_requested_rate
    (up : Entry.client -> Entry.params -> list Predictor.item)
    (i : Entry.inputs) (fs fs' : Predictor.files) (p : string) :
  Entry.predict up i fs = (Predictor.Returned p, fs') ->
  exists wav,
    Predictor.read_file fs' p = Some wav
    /\ Struct.unpack (slice 24 28 wav)
       = Entry.SampleRate (Entry.AudioFormat (Entry.make_params i))
    /\ Struct.unpack (slice 22 24 wav) = 1
    /\ Struct.unpack (slice 34 36 wav) = 16.
Proof.
  unfold Entry.predict.
  destruct (Entry.check_text (Entry.text i)) as [[]|e]; [|discriminate].
  set (resp := up (Entry.make_client i) (Entry.make_params i)).
  intros Hp.
  destruct (predict_cases (Entry.sample_rate i) resp fs)
    as [(e & _ & H)|[(_ & _ & H)|[(_ & _ & _ & m & H)|(_ & _ & _ & H)]]];
    try (rewrite H in Hp; discriminate Hp).
  rewrite H in Hp.
  assert (Hp1 : p = Predictor.OUTPUT_PATH) by congruence.
  assert (Hp2 : fs' = Predictor.write_file fs Predictor.OUTPUT_PATH
                        (wav_header (Predictor.hz (Entry.sample_rate i)) 1 2
                           (Z.of_nat (length (concat (Predictor.chunks
                              (Predictor.consume resp [])))))
                         ++ concat (Predictor.chunks
                                      (Predictor.consume resp []))))
    by congruence.
  subst p fs'.
  exists (wav_header (Predictor.hz (Entry.sample_rate i)) 1 2
            (Z.of_nat (length (concat (Predictor.chunks
               (Predictor.consume resp [])))))
          ++ concat (Predictor.chunks (Predictor.consume resp []))).
  split; [apply read_write_file|].
  split; [|split; reflexivity].
  match goal with
  | |- Struct.unpack (slice 24 28 (wav_header ?r 1 2 ?n ++ ?d)) = _ =>
    change (slice 24 28 (wav_header r 1 2 n ++ d)) with (le_split 4 r)
  end.
  unfold Entry.make_params. cbn [Entry.AudioFormat Entry.SampleRate].
  apply unpack_le_split_4.
  destruct (Entry.sample_rate i); unfold Struct.L_MAX; cbn; lia.
Qed.

(** Scenario A at the default rate. *)
Lemma returned_file_declares_requested_rate_witness :
  exists wav,
    Predictor.read_file
      (snd (Entry.predict answers_scenario_A
              (with_defaults padded_hi "id" "key" 1400000001) []))
      Predictor.OUTPUT_PATH = Some wav
    /\ Struct.unpack (slice 24 28 wav) = 24000.
Proof.
  destruct (returned_file_declares_requested_rate answers_scenario_A
              (with_defaults padded_hi "id" "key" 1400000001) []
              (snd (Entry.predict answers_scenario_A
                      (with_defaults padded_hi "id" "key" 1400000001) []))
              Predictor.OUTPUT_PATH eq_refl)
    as (wav & Hw & Hr & _).
  exists wav. split; [exact Hw|exact Hr].
Defined.
